(** * datadog-ci: override resolver and synthetics run orchestrator

    A shallow embedding of
    - [validateAndParseOverrides] and the coercions it uses
      ([toBoolean], [toNumber], [toExecutionRule], [parseOverrideValue]),
    - [getTriggerConfigs] and [executeTests] of [run-tests-lib.ts],
    together with the properties the specification states about them.

    Conventions.  A JavaScript string is a [string]: each [ascii] is one code
    unit, so the development covers the strings whose code units are below 256.
    A JavaScript object used as a dictionary is a [gmap string _]; object spread
    is a right-biased union.  Code that can throw returns a [completion]. *)

From Stdlib Require Import ZArith Ascii String List Lia.
From stdpp Require Import base option gmap strings list.

Set Warnings "-register-all,-clear-no-such-hyp".
Local Open Scope string_scope.

(** ** Thrown values *)

(** The error classes of [errors.ts] that [run-tests-lib.ts] constructs or
    tests with [instanceof], a backend (HTTP) error as the API client surfaces
    it, and the plain [Error] of the override resolver.  A [CiError] built
    from its code alone has the empty message of [Error]. *)
Inductive error :=
| JsError (message : string)
| CiError (code : string) (message : string)
| CriticalError (code : string) (message : string)
| BatchTimeoutRunawayError (message : string)
| EndpointError (status : Z) (message : string).

(** [error.message] *)
Definition message_of (e : error) : string :=
  match e with
  | JsError m => m
  | CiError _ m => m
  | CriticalError _ m => m
  | BatchTimeoutRunawayError m => m
  | EndpointError _ m => m
  end.

(** The outcome of evaluating a call: it returns or it throws. *)
Inductive completion (A : Type) :=
| Return (a : A)
| Throw (e : error).
Arguments Return {A} a.
Arguments Throw {A} e.

Definition cbind {A B} (c : completion A) (k : A → completion B) : completion B :=
  match c with
  | Return a => k a
  | Throw e => Throw e
  end.

Declare Scope completion_scope.
Delimit Scope completion_scope with completion.
Notation "'let!' x ':=' c 'in' k" := (cbind c (fun x => k))
  (at level 10, x name, c at level 100, k at level 200) : completion_scope.

(** ** String primitives of the language *)

Module JS.

Definition code (c : ascii) : nat := nat_of_ascii c.

(** [String.prototype.toLowerCase] on one code unit below 256: the ASCII
    capitals and the Latin-1 capitals (U+00C0..U+00DE but the
    multiplication sign U+00D7) move up by 32. *)
Definition lowerChar (c : ascii) : ascii :=
  let n := code c in
  if (((65 <=? n) && (n <=? 90)) || ((192 <=? n) && (n <=? 222) && negb (n =? 215)))%nat
  then ascii_of_nat (n + 32)
  else c.

Fixpoint toLowerCase (s : string) : string :=
  match s with
  | EmptyString => EmptyString
  | String c s' => String (lowerChar c) (toLowerCase s')
  end.

(** White space and line terminators below 256, as [trim] strips them:
    TAB, LF, VT, FF, CR, SP, NBSP. *)
Definition isWhiteSpace (c : ascii) : bool :=
  let n := code c in
  (((9 <=? n) && (n <=? 13)) || (n =? 32) || (n =? 160))%nat.

Fixpoint trimStart (s : string) : string :=
  match s with
  | EmptyString => EmptyString
  | String c s' => if isWhiteSpace c then trimStart s' else s
  end.

(** Strips trailing white space: a character is kept when something
    non-blank follows it or it is itself non-blank. *)
Fixpoint trimEnd (s : string) : string :=
  match s with
  | EmptyString => EmptyString
  | String c s' =>
      match trimEnd s' with
      | EmptyString => if isWhiteSpace c then EmptyString else String c EmptyString
      | r => String c r
      end
  end.

Definition trim (s : string) : string := trimEnd (trimStart s).

(** [s.split(sep)] for a one-character separator: the segments between
    the occurrences of [sep]; never an empty array. *)
Fixpoint split (sep : ascii) (s : string) : list string :=
  match s with
  | EmptyString => [EmptyString]
  | String c s' =>
      if Ascii.eqb c sep then EmptyString :: split sep s'
      else match split sep s' with
           | seg :: segs => String c seg :: segs
           | [] => [String c EmptyString]
           end
  end.

(** Line terminators below 256: the characters [.] does not match in a
    regular expression without the [s] flag. *)
Definition isLineTerminator (c : ascii) : bool :=
  Ascii.eqb c "010" || Ascii.eqb c "013".

Definition dot (c : ascii) : bool := negb (isLineTerminator c).

Fixpoint allDot (s : string) : bool :=
  match s with
  | EmptyString => true
  | String c s' => dot c && allDot s'
  end.

(** Truthiness of a string: the empty string is falsy. *)
Definition truthy (s : string) : bool :=
  match s with EmptyString => false | _ => true end.

End JS.

(** ** The edit distance of [fast-levenshtein] *)

Module Levenshtein.

Definition min3 (a b c : nat) : nat := Nat.min a (Nat.min b c).

Definition cost (a b : ascii) : nat := if Ascii.eqb a b then 0 else 1.

(** The Levenshtein distance by its recurrence: the least number of
    insertions, deletions and substitutions of one character. *)
Fixpoint distance (s : string) : string → nat :=
  match s with
  | EmptyString => String.length
  | String a s' =>
      fix distance_s (t : string) : nat :=
        match t with
        | EmptyString => S (String.length s')
        | String b t' =>
            min3 (distance s' t + 1) (distance_s t' + 1) (distance s' t' + cost a b)
        end
  end.

(** The same distance by its table, one row per character of [s]: the row
    of [s] lists the distances from [s] to [t] and to each of its suffixes. *)
Fixpoint baseRow (t : string) : list nat :=
  match t with
  | EmptyString => [0%nat]
  | String _ t' => S (String.length t') :: baseRow t'
  end.

Fixpoint nextRow (a : ascii) (t : string) (prev : list nat) : list nat :=
  match t, prev with
  | String b t', d :: prev' =>
      let rest := nextRow a t' prev' in
      min3 (d + 1) (hd 0%nat rest + 1) (hd 0%nat prev' + cost a b) :: rest
  | EmptyString, d :: _ => [(d + 1)%nat]
  | _, [] => []
  end.

Fixpoint row (s t : string) : list nat :=
  match s with
  | EmptyString => baseRow t
  | String a s' => nextRow a t (row s' t)
  end.

(** [levenshtein.get(s, t)] *)
Definition get (s t : string) : nat := hd 0%nat (row s t).

(** What a row is meant to hold: the distances of the recurrence from [s]
    to [t] and to each suffix of [t]. *)
Fixpoint distances (s t : string) : list nat :=
  match t with
  | EmptyString => [distance s EmptyString]
  | String _ t' => distance s t :: distances s t'
  end.

End Levenshtein.

(** ** [utils/internal.ts]: coercions and the override resolver *)

Module Internal.

(** The values an override accumulator holds.  [number] is the language's
    number type; sub-objects ([retry], [basicAuth], [cookies], [headers],
    [variables]) are objects of their own. *)
Inductive overrideValue (number : Type) :=
| VBoolean (b : bool)
| VNumber (n : number)
| VString (s : string)
| VStrings (l : list string)
| VExecutionRule (r : string)
| VObject (o : gmap string (overrideValue number)).
Arguments VBoolean {number} b.
Arguments VNumber {number} n.
Arguments VString {number} s.
Arguments VStrings {number} l.
Arguments VExecutionRule {number} r.
Arguments VObject {number} o.

Inductive ValidTestOverrideValueTypeName :=
| TBoolean | TNumber | TString | TStringArray | TExecutionRule.

Definition allOverrideKeys : list string :=
  [ "cookies"; "retry"; "basicAuth"; "allowInsecureCertificates"; "body";
    "bodyType"; "defaultStepTimeout"; "deviceIds"; "executionRule";
    "followRedirects"; "headers"; "locations"; "pollingTimeout";
    "resourceUrlSubstitutionRegexes"; "startUrl"; "startUrlSubstitutionRegex";
    "testTimeout"; "variables" ].

Definition dquote : string := String (ascii_of_nat 34) EmptyString.

(** [override.match(re)] for the expression [re] made of: start of input,
    a lazy group of any characters, an equals sign, a greedy group of any
    characters, end of input.  The first group is lazy: at each
    position the match is completed if an [=] stands there and the rest of
    the input is matched by the greedy group; otherwise the group takes one more
    character that [.] accepts. *)
Fixpoint matchOverride (s : string) : option (string * string) :=
  match s with
  | EmptyString => None
  | String c s' =>
      if Ascii.eqb c "=" && JS.allDot s' then Some (EmptyString, s')
      else if JS.dot c then
        match matchOverride s' with
        | Some (k, v) => Some (String c k, v)
        | None => None
        end
      else None
  end.

(** [match[1] ?? ''] and [match[2] ?? ''] *)
Definition rawKeyOf (override : string) : string :=
  match matchOverride override with Some (k, _) => k | None => "" end.
Definition valueOf (override : string) : string :=
  match matchOverride override with Some (_, v) => v | None => "" end.

(** [rawKey.split('.')[0]] and [rawKey.split('.')[1]] *)
Definition keyOf (override : string) : string :=
  nth 0 (JS.split "." (rawKeyOf override)) "".
Definition subKeyOf (override : string) : option string :=
  JS.split "." (rawKeyOf override) !! 1%nat.

(** [allOverrideKeys.reduce((prev, curr) =>
      levenshtein.get(curr, key) < levenshtein.get(prev, key) ? curr : prev)] *)
Definition closer (key prev curr : string) : string :=
  if (Levenshtein.get curr key <? Levenshtein.get prev key)%nat then curr else prev.

Definition closestKeyIn (keys : list string) (key : string) : string :=
  match keys with
  | [] => ""
  | k :: ks => fold_left (closer key) ks k
  end.

Definition closestKey (key : string) : string := closestKeyIn allOverrideKeys key.

(** The [default:] branch of the [switch]. *)
Definition invalidKey {A} (key : string) : completion A :=
  let closest := closestKey key in
  if (5 <? Levenshtein.get closest key)%nat
  then Throw (JsError ("Invalid key: " +:+ key))
  else Throw (JsError ("Invalid key: " +:+ key +:+ ". Did you mean: " +:+ closest +:+ "?")).

Definition toBoolean (env : option string) : option bool :=
  match env with
  | None => None
  | Some env =>
      if (JS.toLowerCase env =? "true") || (env =? "1") then Some true
      else if (JS.toLowerCase env =? "false") || (env =? "0") then Some false
      else None
  end.

Section Overrides.

(** The number type with the built-ins [Number(...)] and [isNaN(...)], and
    [Object.values(ExecutionRule)] of [interfaces.ts]. *)
Context {number : Type}.
Variable Number : string → number.
Variable isNaN : number → bool.
Variable executionRuleValues : list string.

Abbreviation value := (overrideValue number).
Abbreviation accumulator := (gmap string (overrideValue number)).

Definition toNumber (env : option string) : option number :=
  match env with
  | None => None
  | Some env =>
      if JS.trim env =? "" then None
      else let n := Number env in
           if isNaN n then None else Some n
  end.

Definition toExecutionRule (env : option string) : option string :=
  match env with
  | None => None
  | Some env =>
      if existsb (String.eqb (JS.toLowerCase env)) executionRuleValues
      then Some (JS.toLowerCase env)
      else None
  end.

Definition parseOverrideValue (v : string) (type : ValidTestOverrideValueTypeName)
  : completion value :=
  match type with
  | TBoolean =>
      match toBoolean (Some v) with
      | Some parsedBoolean => Return (VBoolean parsedBoolean)
      | None => Throw (JsError ("Invalid boolean value: " +:+ v))
      end
  | TNumber =>
      match toNumber (Some v) with
      | Some parsedNumber => Return (VNumber parsedNumber)
      | None => Throw (JsError ("Invalid number value: " +:+ v))
      end
  | TString => Return (VString (JS.trim v))
  | TStringArray => Return (VStrings (map JS.trim (JS.split ";" v)))
  | TExecutionRule =>
      match toExecutionRule (Some v) with
      | Some parsedExecutionRule => Return (VExecutionRule parsedExecutionRule)
      | None => Throw (JsError ("Invalid ExecutionRule value: " +:+ v))
      end
  end.

(** [acc[key] = acc[key] ?? {}; acc[key][subKey] = v].  Writing a property
    of a value that is not an object is a [TypeError] in strict code. *)
Definition setSub (acc : accumulator) (key subKey : string) (v : value)
  : completion accumulator :=
  match default (VObject ∅) (acc !! key) with
  | VObject o => Return (<[key := VObject (<[subKey := v]> o)]> acc)
  | _ => Throw (JsError "TypeError")
  end.

Definition isOneOf (key : string) (keys : list string) : bool :=
  existsb (String.eqb key) keys.

(** The callback of [overrides.reduce]. *)
Definition parseOverride (acc : accumulator) (override : string)
  : completion accumulator :=
  let v := valueOf override in
  let key := keyOf override in
  let subKey := subKeyOf override in
  (if isOneOf key ["defaultStepTimeout"; "pollingTimeout"; "testTimeout"] then
     let! n := parseOverrideValue v TNumber in Return (<[key := n]> acc)
   else if isOneOf key ["allowInsecureCertificates"; "followRedirects"] then
     let! b := parseOverrideValue v TBoolean in Return (<[key := b]> acc)
   else if isOneOf key ["body"; "bodyType"; "startUrl"; "startUrlSubstitutionRegex"] then
     let! s := parseOverrideValue v TString in Return (<[key := s]> acc)
   else if isOneOf key ["deviceIds"; "locations"; "resourceUrlSubstitutionRegexes"] then
     let! l := parseOverrideValue v TStringArray in Return (<[key := l]> acc)
   else if key =? "executionRule" then
     let! r := parseOverrideValue v TExecutionRule in Return (<[key := r]> acc)
   else if key =? "retry" then
     match subKey with
     | Some sk =>
         if isOneOf sk ["count"; "interval"] then
           let! n := parseOverrideValue v TNumber in setSub acc "retry" sk n
         else Throw (JsError ("Invalid subkey for " +:+ key))
     | None => Throw (JsError ("Invalid subkey for " +:+ key))
     end
   else if key =? "basicAuth" then
     match subKey with
     | Some sk =>
         if isOneOf sk ["username"; "password"] then
           let! s := parseOverrideValue v TString in setSub acc "basicAuth" sk s
         else Throw (JsError ("Invalid subkey for " +:+ key))
     | None => Throw (JsError ("Invalid subkey for " +:+ key))
     end
   else if key =? "cookies" then
     match subKey with
     | Some (String _ _ as sk) =>
         if sk =? "append" then
           let! b := parseOverrideValue v TBoolean in setSub acc "cookies" "append" b
         else Throw (JsError ("The path " +:+ dquote +:+ key +:+ "." +:+ sk +:+ dquote
                              +:+ " is invalid. Did you mean `--override cookies=...`?"))
     | _ =>
         let! s := parseOverrideValue v TString in setSub acc "cookies" "value" s
     end
   else if isOneOf key ["headers"; "variables"] then
     match subKey with
     | Some (String _ _ as sk) => setSub acc key sk (VString v)
     | _ => Throw (JsError ("No subkey found for " +:+ key))
     end
   else invalidKey key)%completion.

(** [overrides.reduce(callback, {})]: the first override that throws ends
    the reduction. *)
Fixpoint reduceOverrides (overrides : list string) (acc : accumulator)
  : completion accumulator :=
  match overrides with
  | [] => Return acc
  | override :: rest =>
      (let! acc' := parseOverride acc override in reduceOverrides rest acc')%completion
  end.

Definition validateAndParseOverrides (overrides : option (list string))
  : completion accumulator :=
  match overrides with
  | None => Return ∅
  | Some overrides => reduceOverrides overrides ∅
  end.

End Overrides.

End Internal.

(** ** [run-tests-lib.ts]: trigger configs and the run orchestrator *)

Module RunTestsLib.

(** *** Data *)

(** Timeouts are whole numbers; [Math.max] of no argument is [-Infinity]. *)
Inductive number :=
| NegInfinity
| Num (z : Z).

(** [UserConfigOverride]: option name to value. *)
Abbreviation overrides := (gmap string (Internal.overrideValue Z)).

(** A [TriggerConfig], also the shape of the entries that the test-config
    files and the search query yield: the test id, the other own properties
    (such as [suite]) and the optional per-test overrides. *)
Record TriggerConfig := mkTriggerConfig {
  cfg_id : string;
  cfg_props : gmap string string;
  testOverrides : option overrides
}.

Record Test := mkTest { public_id : string }.

Record TunnelInfo := mkTunnelInfo { host : string; port : Z }.

Record TestPayload := mkTestPayload {
  payload_public_id : string;
  payload_tunnel : option TunnelInfo
}.

Record Trigger := mkTrigger {
  batch_id : string;
  selective_rerun_rate_limited : bool
}.

Record Result := mkResult { result_id : string; passed : bool }.

Record Summary := mkSummary {
  initialSummary : gmap string Z;
  batchId : string
}.

Record TestsToTrigger := mkTestsToTrigger {
  tt_initialSummary : gmap string Z;
  overriddenTestsToTrigger : list TestPayload;
  tests : list Test
}.

Record Tunnel := mkTunnel { tunnel_url : string; tunnel_ids : list string }.

Record RunTestsCommandConfig := mkConfig {
  publicIds : list string;
  testSearchQuery : option string;
  defaultTestOverrides : option overrides;
  batchTimeout : option Z;
  pollingTimeout : option Z;
  tunnel : bool;
  selectiveRerun : option bool;
  failOnMissingTests : bool;
  failOnCriticalErrors : bool;
  failOnTimeout : bool;
  datadogSite : string;
  subdomain : string
}.

(** The options object handed to [waitForResults]. *)
Record PollOptions := mkPollOptions {
  po_datadogSite : string;
  po_failOnCriticalErrors : bool;
  po_failOnTimeout : bool;
  po_subdomain : string;
  po_batchTimeout : number
}.

Record RunOutcome := mkRunOutcome { results : list Result; summary : Summary }.

(** *** Pure parts *)

(** [t.testOverrides?.pollingTimeout] *)
Definition pollingTimeoutOf (t : TriggerConfig) : option Z :=
  match testOverrides t with
  | Some o => match o !! "pollingTimeout" with
              | Some (Internal.VNumber n) => Some n
              | _ => None
              end
  | None => None
  end.

(** [a || b] for an optional number [a]: [undefined] and [0] are falsy. *)
Definition orElse (a : option Z) (b : Z) : Z :=
  match a with
  | Some z => if (z =? 0)%Z then b else z
  | None => b
  end.

(** [Math.max(...xs)] *)
Definition Math_max (xs : list Z) : number :=
  fold_left (fun acc x => match acc with
                          | NegInfinity => Num x
                          | Num m => Num (Z.max m x)
                          end) xs NegInfinity.

(** [ids.length > 0] *)
Definition nonEmpty {A} (l : list A) : bool := (0 <? length l)%nat.

(** [[testIdsFromCli, testIdsFromSearchQuery, testIdsFromTestConfigs]
      .find((ids) => ids.length > 0) ?? []] *)
Definition testIdsToTrigger (fromCli fromSearchQuery fromTestConfigs : list string)
  : list string :=
  default [] (List.find nonEmpty [fromCli; fromSearchQuery; fromTestConfigs]).

(** [array.findIndex(p)]; [None] stands for [-1]. *)
Fixpoint findIndex {A} (p : A → bool) (l : list A) : option nat :=
  match l with
  | [] => None
  | a :: l' => if p a then Some 0%nat else S <$> findIndex p l'
  end.

(** [const i = array.findIndex(test => test.id === id);
     if (i >= 0) found = array.splice(i, 1)[0]]:
    the entry found, if any, and the array it leaves behind. *)
Definition spliceById (id : string) (l : list TriggerConfig)
  : option TriggerConfig * list TriggerConfig :=
  match findIndex (fun t => cfg_id t =? id) l with
  | Some i => (l !! i, delete i l)
  | None => (None, l)
  end.

(** Spread of an optional object into an object literal. *)
Definition spread {V} (o : option (gmap string V)) : gmap string V := default ∅ o.

(** The object literal
    [{id, ...testFromSearchQuery, ...testFromTestConfigs, testOverrides: {...}}]:
    later properties overwrite earlier ones. *)
Definition makeTriggerConfig (defaults : option overrides) (id : string)
    (fromSearchQuery fromTestConfigs : option TriggerConfig) : TriggerConfig :=
  {| cfg_id :=
       match fromTestConfigs, fromSearchQuery with
       | Some t, _ => cfg_id t
       | None, Some t => cfg_id t
       | None, None => id
       end;
     cfg_props := spread (cfg_props <$> fromTestConfigs) ∪ spread (cfg_props <$> fromSearchQuery);
     testOverrides :=
       Some (spread (fromTestConfigs ≫= testOverrides) ∪ spread defaults) |}.

(** [testIdsToTrigger.map((id) => ...)]; the two arrays of candidates are
    spliced as the ids are visited. *)
Fixpoint mapIds (defaults : option overrides) (ids : list string)
    (testsFromSearchQuery testsFromTestConfigs : list TriggerConfig)
  : list TriggerConfig :=
  match ids with
  | [] => []
  | id :: ids' =>
      let '(fromSearchQuery, testsFromSearchQuery') := spliceById id testsFromSearchQuery in
      let '(fromTestConfigs, testsFromTestConfigs') := spliceById id testsFromTestConfigs in
      makeTriggerConfig defaults id fromSearchQuery fromTestConfigs
        :: mapIds defaults ids' testsFromSearchQuery' testsFromTestConfigs'
  end.

(** The body of [getTriggerConfigs] once both sources have answered. *)
Definition triggerConfigsFrom (config : RunTestsCommandConfig)
    (testsFromTestConfigs testsFromSearchQuery : list TriggerConfig) : list TriggerConfig :=
  let testIdsFromCli := publicIds config in
  let testIdsFromSearchQuery := map cfg_id testsFromSearchQuery in
  let testIdsFromTestConfigs := map cfg_id testsFromTestConfigs in
  mapIds (defaultTestOverrides config)
    (testIdsToTrigger testIdsFromCli testIdsFromSearchQuery testIdsFromTestConfigs)
    testsFromSearchQuery testsFromTestConfigs.

(** *** Effects *)

(** What the collaborators see of a run, in order: one event per call. *)
Inductive event :=
| EvGetTestConfigs
| EvGetTestsFromSearchQuery
| EvGetTestsToTrigger (triggerConfigs : list TriggerConfig)
    (triggerFromSearch failOnMissingTests tunnel : bool)
| EvGetTunnelPresignedURL (ids : list string)
| EvTunnelStart (t : Tunnel)
| EvTunnelStop (t : Tunnel)
| EvRunTests (payloads : list TestPayload) (selectiveRerun : option bool)
    (batchTimeout : option Z)
| EvReporterError (text : string)
| EvWaitForResults (trigger : Trigger) (tests : list Test) (options : PollOptions)
    (tunnel : option Tunnel).

(** The answers of the collaborators: the two test sources (the suites given
    to [getTestConfigs] are part of its answer), the backend client, the
    tunnel transport and the poller.  A call returns or throws. *)
Record Collaborators := mkCollaborators {
  getTestConfigs : RunTestsCommandConfig → completion (list TriggerConfig);
  getTestsFromSearchQuery : RunTestsCommandConfig → completion (list TriggerConfig);
  getTestsToTrigger :
    list TriggerConfig → bool → bool → bool → completion TestsToTrigger;
  getTunnelPresignedURL : list string → completion string;
  tunnelStart : Tunnel → completion TunnelInfo;
  runTests : list TestPayload → option bool → option Z → completion Trigger;
  waitForResults :
    Trigger → list Test → PollOptions → option Tunnel → completion (list Result)
}.

(** The state a run threads through its steps: the calls made so far and the
    local variable [tunnel]. *)
Record state := mkState {
  trace : list event;
  tunnelVar : option Tunnel
}.

Definition initial : state := {| trace := []; tunnelVar := None |}.

(** State and exceptions. *)
Definition M (A : Type) : Type := state → state * completion A.

Definition ret {A} (a : A) : M A := fun s => (s, Return a).

Definition bind {A B} (m : M A) (k : A → M B) : M B :=
  fun s => match m s with
           | (s', Return a) => k a s'
           | (s', Throw e) => (s', Throw e)
           end.

Definition throw {A} (e : error) : M A := fun s => (s, Throw e).

(** [try { m } catch (error) { handler error }] *)
Definition tryCatch {A} (m : M A) (handler : error → M A) : M A :=
  fun s => match m s with
           | (s', Throw e) => handler e s'
           | r => r
           end.

(** [try { m } finally { fin }]: [fin] runs on every exit; an exception
    of [fin] replaces the completion of [m]. *)
Definition tryFinally {A} (m : M A) (fin : M unit) : M A :=
  fun s => match m s with
           | (s', c) => match fin s' with
                        | (s'', Return _) => (s'', c)
                        | (s'', Throw e) => (s'', Throw e)
                        end
           end.

(** A notification ([tunnel.stop()], [reporter.error(...)]): it is recorded
    and it returns. *)
Definition emit (ev : event) : M unit :=
  fun s => ({| trace := trace s ++ [ev]; tunnelVar := tunnelVar s |}, Return ()).

(** A call to a collaborator: it is recorded, then it returns or throws. *)
Definition call {A} (ev : event) (answer : completion A) : M A :=
  fun s => ({| trace := trace s ++ [ev]; tunnelVar := tunnelVar s |}, answer).

Definition getTunnel : M (option Tunnel) := fun s => (s, Return (tunnelVar s)).

Definition setTunnel (t : Tunnel) : M unit :=
  fun s => ({| trace := trace s; tunnelVar := Some t |}, Return ()).

#[global] Instance M_ret : MRet M := @ret.
#[global] Instance M_bind : MBind M := fun A B k m => bind m k.

Section Orchestrator.

(** What [run-tests-lib.ts] imports and this development does not have:
    the constant [DEFAULT_BATCH_TIMEOUT], the test [isForbiddenError] of the API
    client, the class test [instanceof CiError], and the three compatibility
    rewrites of the configuration (their deprecation messages are not
    recorded). *)
Variable DEFAULT_BATCH_TIMEOUT : Z.
Variable isForbiddenError : error → bool.
Variable instanceofCiError : error → bool.
Variable replaceGlobalWithDefaultTestOverrides : RunTestsCommandConfig → RunTestsCommandConfig.
Variable moveLocationsToTestOverrides : RunTestsCommandConfig → RunTestsCommandConfig.
Variable replacePollingTimeoutWithBatchTimeout : RunTestsCommandConfig → option Z.

Variable api : Collaborators.

(** [error instanceof BatchTimeoutRunawayError] *)
Definition instanceofBatchTimeoutRunawayError (e : error) : bool :=
  match e with
  | BatchTimeoutRunawayError _ => true
  | _ => false
  end.

(** The three rewrites at the head of [executeTests]. *)
Definition normalize (config : RunTestsCommandConfig) : RunTestsCommandConfig :=
  let config := replaceGlobalWithDefaultTestOverrides config in
  let config := moveLocationsToTestOverrides config in
  {| publicIds := publicIds config;
     testSearchQuery := testSearchQuery config;
     defaultTestOverrides := defaultTestOverrides config;
     batchTimeout := replacePollingTimeoutWithBatchTimeout config;
     pollingTimeout := pollingTimeout config;
     tunnel := tunnel config;
     selectiveRerun := selectiveRerun config;
     failOnMissingTests := failOnMissingTests config;
     failOnCriticalErrors := failOnCriticalErrors config;
     failOnTimeout := failOnTimeout config;
     datadogSite := datadogSite config;
     subdomain := subdomain config |}.

Definition getTriggerConfigs (config : RunTestsCommandConfig) : M (list TriggerConfig) :=
  (testsFromTestConfigs ← call EvGetTestConfigs (getTestConfigs api config);
   testsFromSearchQuery ← call EvGetTestsFromSearchQuery (getTestsFromSearchQuery api config);
   ret (triggerConfigsFrom config testsFromTestConfigs testsFromSearchQuery)).

(** [Math.max(...triggerConfigs.map((t) =>
      config.batchTimeout || t.testOverrides?.pollingTimeout
        || config.pollingTimeout || DEFAULT_BATCH_TIMEOUT))] *)
Definition maxPollingTimeout (config : RunTestsCommandConfig)
    (triggerConfigs : list TriggerConfig) : number :=
  Math_max
    (map (fun t =>
            orElse (batchTimeout config)
              (orElse (pollingTimeoutOf t)
                 (orElse (pollingTimeout config) DEFAULT_BATCH_TIMEOUT)))
       triggerConfigs).

Definition stopTunnel : M unit :=
  (t ← getTunnel;
   match t with
   | Some t => emit (EvTunnelStop t)
   | None => ret ()
   end).

Definition rateLimitedMessage : string :=
  "The selective re-run feature was rate-limited. All tests will be re-run."
    +:+ String "010" (String "010" EmptyString).

Definition authorizationOr (code : string) (e : error) : error :=
  CriticalError (if isForbiddenError e then "AUTHORIZATION_ERROR" else code) (message_of e).

Definition executeTests (config : RunTestsCommandConfig) : M RunOutcome :=
  (let config := normalize config in
   triggerConfigs ←
     tryCatch (getTriggerConfigs config)
       (fun e => throw (authorizationOr "UNAVAILABLE_TEST_CONFIG" e));
   if (length triggerConfigs =? 0)%nat then throw (CiError "NO_TESTS_TO_RUN" "") else
   testsToTriggerResult ←
     tryCatch
       (let triggerFromSearch := from_option JS.truthy false (testSearchQuery config) in
        call (EvGetTestsToTrigger triggerConfigs triggerFromSearch
                (failOnMissingTests config) (tunnel config))
          (getTestsToTrigger api triggerConfigs triggerFromSearch
             (failOnMissingTests config) (tunnel config)))
       (fun e => if instanceofCiError e then throw e
                 else throw (authorizationOr "UNAVAILABLE_TEST_CONFIG" e));
   let tests := tests testsToTriggerResult in
   let overriddenTestsToTrigger := overriddenTestsToTrigger testsToTriggerResult in
   let initialSummary := tt_initialSummary testsToTriggerResult in
   if (length tests =? 0)%nat then throw (CiError "NO_TESTS_TO_RUN" "") else
   let publicIdsToTrigger := map public_id tests in
   overriddenTestsToTrigger ←
     (if tunnel config then
        presignedURL ←
          tryCatch
            (call (EvGetTunnelPresignedURL publicIdsToTrigger)
               (getTunnelPresignedURL api publicIdsToTrigger))
            (fun e => throw (CriticalError "UNAVAILABLE_TUNNEL_CONFIG" (message_of e)));
        tryCatch
          (let t := {| tunnel_url := presignedURL; tunnel_ids := publicIdsToTrigger |} in
           setTunnel t;;
           tunnelInfo ← call (EvTunnelStart t) (tunnelStart api t);
           ret (map (fun testToTrigger =>
                       {| payload_public_id := payload_public_id testToTrigger;
                          payload_tunnel := Some tunnelInfo |})
                  overriddenTestsToTrigger))
          (fun e => stopTunnel;; throw (CriticalError "TUNNEL_START_FAILED" (message_of e)))
      else ret overriddenTestsToTrigger);
   trigger ←
     tryCatch
       (call (EvRunTests overriddenTestsToTrigger (selectiveRerun config) (batchTimeout config))
          (runTests api overriddenTestsToTrigger (selectiveRerun config) (batchTimeout config)))
       (fun e => stopTunnel;; throw (CriticalError "TRIGGER_TESTS_FAILED" (message_of e)));
   (if selective_rerun_rate_limited trigger
    then emit (EvReporterError rateLimitedMessage) else ret ());;
   tryFinally
     (tryCatch
        (let maxPollingTimeout := maxPollingTimeout config triggerConfigs in
         let options := {| po_datadogSite := datadogSite config;
                           po_failOnCriticalErrors := failOnCriticalErrors config;
                           po_failOnTimeout := failOnTimeout config;
                           po_subdomain := subdomain config;
                           po_batchTimeout := maxPollingTimeout |} in
         tunnel ← getTunnel;
         results ← call (EvWaitForResults trigger tests options tunnel)
                     (waitForResults api trigger tests options tunnel);
         ret {| results := results;
                summary := {| initialSummary := initialSummary;
                              batchId := batch_id trigger |} |})
        (fun e => if instanceofBatchTimeoutRunawayError e then throw e
                  else throw (CriticalError "POLL_RESULTS_FAILED" (message_of e))))
     stopTunnel).

End Orchestrator.

(** *** Reading a trace *)

Definition isTunnelStart (ev : event) : bool :=
  match ev with EvTunnelStart _ => true | _ => false end.

Definition isTunnelStop (ev : event) : bool :=
  match ev with EvTunnelStop _ => true | _ => false end.

Definition thrown {A} (c : completion A) : option error :=
  match c with
  | Return _ => None
  | Throw e => Some e
  end.

(** The exception a recorded call ended with, if it threw. *)
Definition thrownBy (api : Collaborators) (config : RunTestsCommandConfig) (ev : event)
  : option error :=
  match ev with
  | EvGetTestConfigs => thrown (getTestConfigs api config)
  | EvGetTestsFromSearchQuery => thrown (getTestsFromSearchQuery api config)
  | EvGetTestsToTrigger tcs fromSearch failOnMissing tun =>
      thrown (getTestsToTrigger api tcs fromSearch failOnMissing tun)
  | EvGetTunnelPresignedURL ids => thrown (getTunnelPresignedURL api ids)
  | EvTunnelStart t => thrown (tunnelStart api t)
  | EvRunTests payloads selective timeout => thrown (runTests api payloads selective timeout)
  | EvWaitForResults trigger tests options tun =>
      thrown (waitForResults api trigger tests options tun)
  | EvTunnelStop _ | EvReporterError _ => None
  end.

(** What the run throws when the call recorded as [ev] threw [e]. *)
Definition surfacedAs (isForbiddenError instanceofCiError : error → bool)
    (ev : event) (e : error) : error :=
  match ev with
  | EvGetTestConfigs | EvGetTestsFromSearchQuery =>
      authorizationOr isForbiddenError "UNAVAILABLE_TEST_CONFIG" e
  | EvGetTestsToTrigger _ _ _ _ =>
      if instanceofCiError e then e
      else authorizationOr isForbiddenError "UNAVAILABLE_TEST_CONFIG" e
  | EvGetTunnelPresignedURL _ => CriticalError "UNAVAILABLE_TUNNEL_CONFIG" (message_of e)
  | EvTunnelStart _ => CriticalError "TUNNEL_START_FAILED" (message_of e)
  | EvRunTests _ _ _ => CriticalError "TRIGGER_TESTS_FAILED" (message_of e)
  | EvWaitForResults _ _ _ _ =>
      if instanceofBatchTimeoutRunawayError e then e
      else CriticalError "POLL_RESULTS_FAILED" (message_of e)
  | EvTunnelStop _ | EvReporterError _ => e
  end.

End RunTestsLib.

(** ** [helpers/ci.ts]: the environment of the CI provider *)

Module CI.

(** [process.env]: variable name to value. *)
Abbreviation environment := (gmap string string).


(** [key.startsWith(prefix)] *)
Fixpoint startsWith (prefix s : string) : bool :=
  match prefix, s with
  | EmptyString, _ => true
  | String a prefix', String b s' => Ascii.eqb a b && startsWith prefix' s'
  | String _ _, EmptyString => false
  end.

(** The canonical form of a code unit below 256 under the flag [i]: its upper
    case when that is one code unit (U+00FF goes to U+0178, the micro sign to
    U+039C, the sharp s stays). *)
Definition canonicalize (c : ascii) : nat :=
  let n := JS.code c in
  if ((97 <=? n) && (n <=? 122))%nat then (n - 32)%nat
  else if ((224 <=? n) && (n <=? 254) && negb (n =? 247))%nat then (n - 32)%nat
  else if (n =? 255)%nat then 376%nat
  else if (n =? 181)%nat then 924%nat
  else n.

(** A word of the pattern matched at the head of [s], case ignored. *)
Fixpoint matchesAt (word s : string) : bool :=
  match word, s with
  | EmptyString, _ => true
  | String p word', String c s' =>
      (canonicalize c =? canonicalize p)%nat && matchesAt word' s'
  | String _ _, EmptyString => false
  end.

(** [re.test(s)] for an alternation of words under the flag [i]: some word
    matches at some position. *)
Fixpoint test (words : list string) (s : string) : bool :=
  existsb (fun word => matchesAt word s) words
  || match s with
     | EmptyString => false
     | String _ s' => test words s'
     end.

Definition sensitiveWords : list string := ["PASS"; "TOKEN"; "SECRET"; "KEY"].

(** [Object.entries(process.env).filter(([key, value]) =>
      key.startsWith(prefix) && !re.test(key))
      .reduce((accum, [key, value]) => ({...accum, [key]: value}), {})]
    for the expression [re] of the four sensitive words. *)
Definition getEnvVars (prefix : string) (env : environment) : environment :=
  filter (fun entry => startsWith prefix entry.1 && negb (test sensitiveWords entry.1) = true)
    env.



(** The replacement text of [String.prototype.replace] for a pattern that is a
    string: [$$] is a dollar, [$&] the match, [$`] what precedes it, [$']
    what follows it; there is no capture, so any other [$] stands for
    itself. *)
Fixpoint substitution (matched before after replacement : string) : string :=
  match replacement with
  | EmptyString => EmptyString
  | String a rest =>
      if Ascii.eqb a "$" then
        match rest with
        | String b rest' =>
            if Ascii.eqb b "$" then String "$" (substitution matched before after rest')
            else if Ascii.eqb b "&" then matched +:+ substitution matched before after rest'
            else if Ascii.eqb b "`" then before +:+ substitution matched before after rest'
            else if Ascii.eqb b "'" then after +:+ substitution matched before after rest'
            else String a (substitution matched before after rest)
        | EmptyString => String a EmptyString
        end
      else String a (substitution matched before after rest)
  end.

(** [s.replace(c, replacement)] for a pattern of one character: its first
    occurrence is replaced. *)
Fixpoint replaceFrom (c : ascii) (replacement before s : string) : string :=
  match s with
  | EmptyString => EmptyString
  | String d s' =>
      if Ascii.eqb d c
      then substitution (String c EmptyString) before s' replacement +:+ s'
      else String d (replaceFrom c replacement (before +:+ String d EmptyString) s')
  end.

Definition replace (c : ascii) (replacement s : string) : string :=
  replaceFrom c replacement EmptyString s.


End CI.

(** ** [commands/dependencies/upload.ts]: the upload command *)

Module DependenciesUpload.

Record Payload := mkPayload {
  payload_dependenciesFilePath : string;
  payload_service : string;
  payload_version : string
}.

(** What the command does to the world, in order.  An elapsed time is given
    in milliseconds; the code divides it by 1000 before it hands it over. *)
Inductive event :=
| Stderr (text : string)
| Stdout (text : string)
| ExistsSync (path : string)
| GetMetricsLogger (version service : string)
| ApiConstructor (baseUrl apiKey appKey : string)
| UploadDependencies (payload : Payload)
| Increment (metric : string) (by_ : Z)
| Gauge (metric : string) (elapsedMs : Z)
| Flush.

(** The fields of the command: its options and [this.config]. *)
Record UploadCommand := mkUploadCommand {
  apiKey : option string;
  appKey : option string;
  datadogSite : string;
  dependenciesFilePath : string;
  dryRun : bool;
  releaseVersion : option string;
  service : option string;
  source : option string
}.

(** [this.config], read from the environment when the command is built. *)
Definition configFrom (env : gmap string string) (cmd : UploadCommand) : UploadCommand :=
  {| apiKey := env !! "DATADOG_API_KEY";
     appKey := env !! "DATADOG_APP_KEY";
     datadogSite :=
       match env !! "DATADOG_SITE" with
       | Some site => if JS.truthy site then site else "datadoghq.com"
       | None => "datadoghq.com"
       end;
     dependenciesFilePath := dependenciesFilePath cmd;
     dryRun := dryRun cmd;
     releaseVersion := releaseVersion cmd;
     service := service cmd;
     source := source cmd |}.

Definition SUPPORTED_SOURCES : list string := ["snyk"].
Definition INVALID_INPUT_EXIT_CODE : Z := 1.
Definition MISSING_FILE_EXIT_CODE : Z := 2.
Definition UPLOAD_ERROR_EXIT_CODE : Z := 3.

(** [!value] for an optional string. *)
Definition missing (value : option string) : bool :=
  negb (from_option JS.truthy false value).

(** [list.join(sep)] *)
Fixpoint join (sep : string) (l : list string) : string :=
  match l with
  | [] => EmptyString
  | [x] => x
  | x :: l' => x +:+ sep +:+ join sep l'
  end.

Section Command.

(** What the command imports and this development does not have: the styles
    of [chalk], [path.normalize], the texts of [renderer.ts]. *)
Variable redBold greenBold : string → string.
Variable normalize : string → string.
Variable renderCommandInfo : string → string → string → bool → string.
Variable renderDryRunUpload renderUpload : string.
Variable renderFailedUpload : string → string.
Variable renderSuccessfulCommand : Z → string.

(** The world: the files that exist, the answer of the intake to an upload,
    the two readings of the clock. *)
Variable existsSync : string → bool.
Variable upload : Payload → completion unit.
Variable initialTime endTime : Z.

(** [this.uploadDependencies(payload, metricsLogger)] *)
Definition uploadDependencies (cmd : UploadCommand) (payload : Payload)
  : list event * completion unit :=
  let api := ApiConstructor ("https://api." +:+ datadogSite cmd)
               (default EmptyString (apiKey cmd)) (default EmptyString (appKey cmd)) in
  if dryRun cmd then ([api; Stdout renderDryRunUpload], Return ())
  else
    match upload payload with
    | Return _ =>
        ([api; Stdout renderUpload; UploadDependencies payload; Increment "success" 1],
         Return ())
    | Throw error =>
        ([api; Stdout renderUpload; UploadDependencies payload;
          Stdout (renderFailedUpload (message_of error)); Increment "failed" 1],
         Throw error)
    end.

(** [this.execute()]: the calls made and the exit code returned ([None] when
    the method returns nothing). *)
Definition execute (cmd : UploadCommand) : list event * option Z :=
  match source cmd with
  | None | Some EmptyString =>
      ([Stderr ("Missing " +:+ redBold "--source" +:+ " parameter." +:+ String "010" "")],
       Some INVALID_INPUT_EXIT_CODE)
  | Some source =>
      if negb (existsb (String.eqb source) SUPPORTED_SOURCES) then
        ([Stderr ("Unsupported " +:+ redBold "--source" +:+ " " +:+ source +:+ ". "
                  +:+ "Supported sources are: "
                  +:+ greenBold (join (Internal.dquote +:+ ", " +:+ Internal.dquote) SUPPORTED_SOURCES) +:+ String "010" "")],
         Some INVALID_INPUT_EXIT_CODE)
      else if missing (releaseVersion cmd) then
        ([Stderr ("Missing " +:+ redBold "--release-version" +:+ " parameter."
                  +:+ String "010" "")],
         Some INVALID_INPUT_EXIT_CODE)
      else if missing (service cmd) then
        ([Stderr ("Missing " +:+ redBold "--service" +:+ " parameter." +:+ String "010" "")],
         Some INVALID_INPUT_EXIT_CODE)
      else if missing (appKey cmd) then
        ([Stderr ("Missing " +:+ redBold "DATADOG_APP_KEY" +:+ " in your environment."
                  +:+ String "010" "")],
         Some INVALID_INPUT_EXIT_CODE)
      else if missing (apiKey cmd) then
        ([Stderr ("Missing " +:+ redBold "DATADOG_API_KEY" +:+ " in your environment."
                  +:+ String "010" "")],
         Some INVALID_INPUT_EXIT_CODE)
      else
        let path := normalize (dependenciesFilePath cmd) in
        if negb (existsSync path) then
          ([ExistsSync path;
            Stderr ("Cannot find " +:+ Internal.dquote +:+ path +:+ Internal.dquote
                    +:+ " file." +:+ String "010" "")],
           Some MISSING_FILE_EXIT_CODE)
        else
          let version := default EmptyString (releaseVersion cmd) in
          let service := default EmptyString (service cmd) in
          let before :=
            [ExistsSync path; GetMetricsLogger version service;
             Stdout (renderCommandInfo path version service (dryRun cmd))] in
          let payload := {| payload_dependenciesFilePath := path;
                            payload_service := service;
                            payload_version := version |} in
          match uploadDependencies cmd payload with
          | (calls, Return _) =>
              let total := (endTime - initialTime)%Z in
              ((before ++ calls
                 ++ [Stdout (renderSuccessfulCommand total); Gauge "duration" total; Flush])%list,
               None)
          | (calls, Throw error) =>
              ((before ++ calls ++ [Stderr (message_of error); Flush])%list,
               Some UPLOAD_ERROR_EXIT_CODE)
          end
  end.

End Command.

End DependenciesUpload.

(** ** Concrete runs *)

Module Scenarios.
Import RunTestsLib.

(** The API client reports a forbidden call by the HTTP status 403. *)
Definition isForbidden403 (e : error) : bool :=
  match e with
  | EndpointError status _ => (status =? 403)%Z
  | _ => false
  end.

(** [CiError] and its subclasses. *)
Definition isCiError (e : error) : bool :=
  match e with
  | CiError _ _ | CriticalError _ _ | BatchTimeoutRunawayError _ => true
  | _ => false
  end.

Definition keepBatchTimeout (config : RunTestsCommandConfig) : option Z := batchTimeout config.

Definition withPollingTimeout (id : string) (seconds : Z) : TriggerConfig :=
  {| cfg_id := id; cfg_props := ∅;
     testOverrides := Some {[ "pollingTimeout" := Internal.VNumber seconds ]} |}.

Definition baseConfig : RunTestsCommandConfig :=
  {| publicIds := []; testSearchQuery := None; defaultTestOverrides := None;
     batchTimeout := None; pollingTimeout := None; tunnel := true;
     selectiveRerun := None; failOnMissingTests := false;
     failOnCriticalErrors := false; failOnTimeout := true;
     datadogSite := "datadoghq.com"; subdomain := "app" |}.

Definition twoTests : TestsToTrigger :=
  {| tt_initialSummary := ∅;
     overriddenTestsToTrigger :=
       [ {| payload_public_id := "aaa"; payload_tunnel := None |};
         {| payload_public_id := "bbb"; payload_tunnel := None |} ];
     tests := [ {| public_id := "aaa" |}; {| public_id := "bbb" |} ] |}.

(** The test-config files name two tests, with timeouts of 60 and 120; the
    answers of the test lookup, of the trigger submission and of the poll are
    given. *)
Definition collaboratorsWith (lookup : completion TestsToTrigger)
    (trigger : completion Trigger) (poll : completion (list Result)) : Collaborators :=
  {| getTestConfigs := fun _ =>
       Return [withPollingTimeout "aaa" 60; withPollingTimeout "bbb" 120];
     getTestsFromSearchQuery := fun _ => Return [];
     getTestsToTrigger := fun _ _ _ _ => lookup;
     getTunnelPresignedURL := fun _ => Return "wss://tunnel";
     tunnelStart := fun _ => Return {| host := "localhost"; port := 22 |};
     runTests := fun _ _ _ => trigger;
     waitForResults := fun _ _ _ _ => poll |}.

(** The same id asked for twice on the command line, one test-config entry
    for it. *)
Definition twiceConfig : RunTestsCommandConfig :=
  {| publicIds := ["aaa"; "aaa"]; testSearchQuery := None;
     defaultTestOverrides := Some {[ "pollingTimeout" := Internal.VNumber 30%Z ]};
     batchTimeout := None; pollingTimeout := None; tunnel := false;
     selectiveRerun := None; failOnMissingTests := false;
     failOnCriticalErrors := false; failOnTimeout := true;
     datadogSite := "datadoghq.com"; subdomain := "app" |}.

Definition collaborators := collaboratorsWith (Return twoTests).

Definition batch (rateLimited : bool) : Trigger :=
  {| batch_id := "batch-1"; selective_rerun_rate_limited := rateLimited |}.

Definition forbidden : error := EndpointError 403 "Forbidden".

(** The tunnel these runs open. *)
Definition theTunnel : Tunnel :=
  {| tunnel_url := "wss://tunnel"; tunnel_ids := ["aaa"; "bbb"] |}.

Definition run (api : Collaborators) (config : RunTestsCommandConfig)
  : state * completion RunOutcome :=
  executeTests 1800 isForbidden403 isCiError
    (fun c => c) (fun c => c) keepBatchTimeout api config initial.

End Scenarios.

(** ** The statements of the specification, in its own words *)

Module Spec.
Import Internal.

(** ASCII capital of a lower-case ASCII letter. *)
Definition upperChar (c : ascii) : ascii :=
  let n := JS.code c in
  if ((97 <=? n) && (n <=? 122))%nat then ascii_of_nat (n - 32) else c.

(** All the spellings of [s] that differ from it by the case of ASCII
    letters only ([s] is given in lower case). *)
Fixpoint caseVariants (s : string) : list string :=
  match s with
  | EmptyString => [EmptyString]
  | String c s' =>
      let rest := caseVariants s' in
      if Ascii.eqb (upperChar c) c then map (String c) rest
      else map (String c) rest ++ map (String (upperChar c)) rest
  end.

(** The boolean an override value stands for: [true] in any case or [1],
    [false] in any case or [0], nothing else. *)
Definition acceptedBoolean (v : string) : option bool :=
  if bool_decide (v ∈ "1" :: caseVariants "true") then Some true
  else if bool_decide (v ∈ "0" :: caseVariants "false") then Some false
  else None.

(** The message for a key outside the allow-list: it names the closest key
    when that key is at distance 5 or less. *)
Definition invalidKeyMessage (key : string) : string :=
  if bool_decide (Levenshtein.get (closestKey key) key ≤ 5)%nat
  then "Invalid key: " +:+ key +:+ ". Did you mean: " +:+ closestKey key +:+ "?"
  else "Invalid key: " +:+ key.




Definition allAscii : list ascii := map ascii_of_nat (seq 0 256).

(** Occurrence of a character in a string. *)
Fixpoint contains (c : ascii) (s : string) : bool :=
  match s with
  | EmptyString => false
  | String d s' => Ascii.eqb d c || contains c s'
  end.

(** The deadline as the specification words it: the largest, over the
    trigger configs, of the config's own timeout override when it has one and
    of the global default otherwise. *)
Definition claimedDeadline (DEFAULT_BATCH_TIMEOUT : Z)
    (config : RunTestsLib.RunTestsCommandConfig)
    (triggerConfigs : list RunTestsLib.TriggerConfig) : RunTestsLib.number :=
  let globalDefault :=
    RunTestsLib.orElse (RunTestsLib.batchTimeout config)
      (RunTestsLib.orElse (RunTestsLib.pollingTimeout config) DEFAULT_BATCH_TIMEOUT) in
  RunTestsLib.Math_max
    (map (fun t => default globalDefault (RunTestsLib.pollingTimeoutOf t)) triggerConfigs).

(** The deadline of one trigger config when no global batch timeout is set:
    its own [pollingTimeout] override, else the global [pollingTimeout], else
    the default; a timeout of [0] counts as not set. *)
Definition perConfigDeadline (DEFAULT_BATCH_TIMEOUT : Z)
    (config : RunTestsLib.RunTestsCommandConfig) (t : RunTestsLib.TriggerConfig) : Z :=
  RunTestsLib.orElse (RunTestsLib.pollingTimeoutOf t)
    (RunTestsLib.orElse (RunTestsLib.pollingTimeout config) DEFAULT_BATCH_TIMEOUT).

(** The test-config entry matching an id: the first one that carries it. *)
Definition matchingEntry (id : string) (testsFromTestConfigs : list RunTestsLib.TriggerConfig)
  : option RunTestsLib.TriggerConfig :=
  head (filter (fun t => RunTestsLib.cfg_id t = id) testsFromTestConfigs).

(** Merge in which the per-test value wins on every key both sides have. *)
Definition perTestWins {V} (defaults perTest : gmap string V) (key : string) : option V :=
  match perTest !! key with
  | Some v => Some v
  | None => defaults !! key
  end.

(** The override set as the specification words it: for every id of the
    chosen list, the defaults merged with the overrides of the matching
    test-config entry. *)
Definition overridesAsClaimed (config : RunTestsLib.RunTestsCommandConfig)
    (testsFromTestConfigs testsFromSearchQuery : list RunTestsLib.TriggerConfig) : Prop :=
  ∀ (i : nat) (id : string) (t : RunTestsLib.TriggerConfig),
    RunTestsLib.testIdsToTrigger (RunTestsLib.publicIds config)
      (map RunTestsLib.cfg_id testsFromSearchQuery)
      (map RunTestsLib.cfg_id testsFromTestConfigs) !! i = Some id →
    RunTestsLib.triggerConfigsFrom config testsFromTestConfigs testsFromSearchQuery !! i
      = Some t →
    ∃ o, RunTestsLib.testOverrides t = Some o
         ∧ ∀ key, o !! key
                  = perTestWins (RunTestsLib.spread (RunTestsLib.defaultTestOverrides config))
                      (RunTestsLib.spread
                         (matchingEntry id testsFromTestConfigs ≫= RunTestsLib.testOverrides))
                      key.

(** The calls that reach the backend. *)
Definition isBackendCall (ev : RunTestsLib.event) : bool :=
  match ev with
  | RunTestsLib.EvGetTestConfigs | RunTestsLib.EvGetTestsFromSearchQuery
  | RunTestsLib.EvGetTestsToTrigger _ _ _ _ | RunTestsLib.EvGetTunnelPresignedURL _
  | RunTestsLib.EvRunTests _ _ _ | RunTestsLib.EvWaitForResults _ _ _ _ => true
  | _ => false
  end.

(** Normalisation of permission errors as the specification words it:
    whichever backend call threw a forbidden error, the run ends with the
    critical error [AUTHORIZATION_ERROR]. *)
Definition permissionErrorsAsClaimed (isForbiddenError : error → bool)
    (api : RunTestsLib.Collaborators) (config : RunTestsLib.RunTestsCommandConfig)
    (outcome : RunTestsLib.state * completion RunTestsLib.RunOutcome) : Prop :=
  ∀ ev e,
    ev ∈ RunTestsLib.trace outcome.1 →
    isBackendCall ev = true →
    RunTestsLib.thrownBy api config ev = Some e →
    isForbiddenError e = true →
    ∃ m, outcome.2 = Throw (CriticalError "AUTHORIZATION_ERROR" m).

End Spec.

(** ** Vocabulary of the further properties *)

Module Coverage.
Import Internal Spec.

(** The keys whose value is one scalar or one list, written by [acc[key] = ...]. *)
Definition scalarKeys : list string :=
  [ "defaultStepTimeout"; "pollingTimeout"; "testTimeout";
    "allowInsecureCertificates"; "followRedirects";
    "body"; "bodyType"; "startUrl"; "startUrlSubstitutionRegex";
    "deviceIds"; "locations"; "resourceUrlSubstitutionRegexes";
    "executionRule" ].







(** The trigger config made of one test-config entry alone: its id, its
    properties, the default overrides overridden by its own. *)
Definition configOfEntry (defaults : option RunTestsLib.overrides)
    (t : RunTestsLib.TriggerConfig) : RunTestsLib.TriggerConfig :=
  {| RunTestsLib.cfg_id := RunTestsLib.cfg_id t;
     RunTestsLib.cfg_props := RunTestsLib.cfg_props t;
     RunTestsLib.testOverrides :=
       Some (RunTestsLib.spread (RunTestsLib.testOverrides t)
               ∪ RunTestsLib.spread defaults) |}.

(** A name mentions a word when the word occurs in it in some spelling that
    differs by the case of its letters only ([word] is given in lower case). *)
Definition mentions (word name : string) : Prop :=
  ∃ pre mid post, name = pre +:+ mid +:+ post ∧ mid ∈ caseVariants word.

Definition secretWords : list string := ["pass"; "token"; "secret"; "key"].


Fixpoint upperString (s : string) : string :=
  match s with
  | EmptyString => EmptyString
  | String c s' => String (upperChar c) (upperString s')
  end.

(** Lower-case ASCII letters only. *)
Fixpoint allLower (s : string) : bool :=
  match s with
  | EmptyString => true
  | String c s' => ((97 <=? JS.code c) && (JS.code c <=? 122))%nat && allLower s'
  end.




(** The calls that concern the tunnel. *)
Definition isTunnelCall (ev : RunTestsLib.event) : bool :=
  match ev with
  | RunTestsLib.EvGetTunnelPresignedURL _ | RunTestsLib.EvTunnelStart _
  | RunTestsLib.EvTunnelStop _ => true
  | _ => false
  end.

(** [testToTrigger.tunnel = tunnelInfo] *)
Definition withTunnel (info : RunTestsLib.TunnelInfo) (p : RunTestsLib.TestPayload)
  : RunTestsLib.TestPayload :=
  {| RunTestsLib.payload_public_id := RunTestsLib.payload_public_id p;
     RunTestsLib.payload_tunnel := Some info |}.

(** The payloads of the two tests of the concrete runs, once a tunnel at
    localhost:22 is attached. *)
Definition tunnelledPayloads : list RunTestsLib.TestPayload :=
  map (withTunnel {| RunTestsLib.host := "localhost"; RunTestsLib.port := 22 |})
      (RunTestsLib.overriddenTestsToTrigger Scenarios.twoTests).

(** *** The upload command *)

(** The inputs the upload command asks for are all there. *)
Definition validInputs (cmd : DependenciesUpload.UploadCommand) : bool :=
  bool_decide (DependenciesUpload.source cmd = Some "snyk")
  && negb (DependenciesUpload.missing (DependenciesUpload.releaseVersion cmd))
  && negb (DependenciesUpload.missing (DependenciesUpload.service cmd))
  && negb (DependenciesUpload.missing (DependenciesUpload.appKey cmd))
  && negb (DependenciesUpload.missing (DependenciesUpload.apiKey cmd)).

(** The calls that leave the process: file system, metrics, intake. *)
Definition isOutsideCall (ev : DependenciesUpload.event) : bool :=
  match ev with
  | DependenciesUpload.Stderr _ | DependenciesUpload.Stdout _ => false
  | _ => true
  end.

Definition isUpload (ev : DependenciesUpload.event) : bool :=
  match ev with DependenciesUpload.UploadDependencies _ => true | _ => false end.

Definition isIncrement (ev : DependenciesUpload.event) : bool :=
  match ev with DependenciesUpload.Increment _ _ => true | _ => false end.

Definition isGauge (ev : DependenciesUpload.event) : bool :=
  match ev with DependenciesUpload.Gauge _ _ => true | _ => false end.

Definition isFlush (ev : DependenciesUpload.event) : bool :=
  match ev with DependenciesUpload.Flush => true | _ => false end.

Definition isLogger (ev : DependenciesUpload.event) : bool :=
  match ev with DependenciesUpload.GetMetricsLogger _ _ => true | _ => false end.

(** The command of the usage example, [dependencies upload ./snyk_deps.json
    --source snyk --service my-service --release-version 1.234], with both
    keys in the environment; and the same as a dry run. *)
Definition snykUpload (dry : bool) : DependenciesUpload.UploadCommand :=
  DependenciesUpload.configFrom
    {[ "DATADOG_API_KEY" := "api-key"; "DATADOG_APP_KEY" := "app-key" ]}
    {| DependenciesUpload.apiKey := None;
       DependenciesUpload.appKey := None;
       DependenciesUpload.datadogSite := EmptyString;
       DependenciesUpload.dependenciesFilePath := "./snyk_deps.json";
       DependenciesUpload.dryRun := dry;
       DependenciesUpload.releaseVersion := Some "1.234";
       DependenciesUpload.service := Some "my-service";
       DependenciesUpload.source := Some "snyk" |}.

(** A world for it: plain styles and texts, a path normalizer that drops a
    leading [./], one file, an intake that answers as given, and a clock that
    advances by 1500 ms. *)
Definition dropDotSlash (path : string) : string :=
  match path with
  | String "." (String "/" rest) => rest
  | _ => path
  end.

Definition runUpload (files : list string) (answer : completion unit)
    (cmd : DependenciesUpload.UploadCommand) : list DependenciesUpload.event * option Z :=
  DependenciesUpload.execute (fun s => s) (fun s => s) dropDotSlash
    (fun path version service dry => "Uploading " +:+ path)
    "dry run" "uploading" (fun message => "failed: " +:+ message)
    (fun elapsed => "done")
    (fun path => existsb (String.eqb path) files) (fun _ => answer) 1000 2500 cmd.

End Coverage.

(** * Properties *)

Import Internal Spec.

#[local] Arguments String.append !_ _ / : simpl nomatch.

(** ** The edit distance *)

Lemma distances_hd s t :
  hd 0%nat (Levenshtein.distances s t) = Levenshtein.distance s t.
Proof. by destruct t. Qed.

Lemma distance_to_empty s : Levenshtein.distance s "" = String.length s.
Proof. by destruct s. Qed.

Lemma row_distances s t : Levenshtein.row s t = Levenshtein.distances s t.
Proof.
  induction s as [|a s IHs]; simpl.
  - induction t as [|b t IHt]; simpl; [done|]. by rewrite IHt.
  - rewrite IHs. clear IHs. induction t as [|b t IHt].
    + simpl. rewrite distance_to_empty. f_equal. lia.
    + cbn [Levenshtein.distances Levenshtein.nextRow].
      rewrite IHt, !distances_hd. reflexivity.
Qed.

(** The table computes the Levenshtein distance. *)
Lemma levenshtein_get_distance s t : Levenshtein.get s t = Levenshtein.distance s t.
Proof. unfold Levenshtein.get. by rewrite row_distances, distances_hd. Qed.

Lemma levenshtein_from_empty t : Levenshtein.get "" t = String.length t.
Proof. by rewrite levenshtein_get_distance. Qed.

Lemma levenshtein_to_empty s : Levenshtein.get s "" = String.length s.
Proof. by rewrite levenshtein_get_distance, distance_to_empty. Qed.

Example levenshtein_kitten_sitting :
  Levenshtein.get "kitten" "sitting" = 3%nat ∧ Levenshtein.get "startUrl" "startURL" = 2%nat.
Proof. split; reflexivity. Qed.

(** ** The override resolver *)

Lemma closer_le key prev curr :
  (Levenshtein.get (closer key prev curr) key ≤ Levenshtein.get prev key
   ∧ Levenshtein.get (closer key prev curr) key ≤ Levenshtein.get curr key)%nat.
Proof.
  unfold closer. destruct (Nat.ltb_spec (Levenshtein.get curr key) (Levenshtein.get prev key)); lia.
Qed.

Lemma closer_cases key prev curr :
  closer key prev curr = prev ∨ closer key prev curr = curr.
Proof. unfold closer. destruct (_ <? _)%nat; auto. Qed.

(** The reduction keeps a key of the list that is at least as close as every
    key seen. *)
Lemma fold_closer_min key ks k0 :
  let r := fold_left (closer key) ks k0 in
  r ∈ k0 :: ks
  ∧ ∀ k, k ∈ k0 :: ks → (Levenshtein.get r key ≤ Levenshtein.get k key)%nat.
Proof.
  revert k0. induction ks as [|k1 ks IH]; intros k0; simpl.
  - split; [left|]. intros k Hk. apply list_elem_of_singleton in Hk. subst. lia.
  - destruct (IH (closer key k0 k1)) as [Hin Hmin]. split.
    + apply elem_of_cons in Hin as [Heq|Hin].
      * rewrite Heq. destruct (closer_cases key k0 k1) as [-> | ->]; set_solver.
      * set_solver.
    + intros k Hk.
      pose proof (closer_le key k0 k1) as [Hle0 Hle1].
      pose proof (Hmin (closer key k0 k1) ltac:(left)) as Hc.
      apply elem_of_cons in Hk as [-> | Hk]; [lia|].
      apply elem_of_cons in Hk as [-> | Hk]; [lia|].
      apply Hmin. set_solver.
Qed.

Lemma closestKey_min key :
  closestKey key ∈ allOverrideKeys
  ∧ ∀ k, k ∈ allOverrideKeys →
         (Levenshtein.get (closestKey key) key ≤ Levenshtein.get k key)%nat.
Proof. apply (fold_closer_min key). Qed.

Lemma isOneOf_false key keys : (∀ k, k ∈ keys → key ≠ k) → existsb (String.eqb key) keys = false.
Proof.
  induction keys as [|k ks IH]; intros H; simpl; [done|].
  rewrite IH by (intros; apply H; set_solver).
  destruct (String.eqb_spec key k) as [->|]; [|done].
  exfalso. apply (H k); set_solver.
Qed.

Lemma allAscii_complete c : In c allAscii.
Proof.
  unfold allAscii. rewrite <- (ascii_nat_embedding c).
  apply in_map, in_seq. pose proof (nat_ascii_bounded c). lia.
Qed.




(** *** The key/value split *)

Lemma matchOverride_no_equals s : contains "=" s = false → matchOverride s = None.
Proof.
  induction s as [|c s IH]; simpl; [done|].
  intros H. apply orb_false_elim in H as [Hc Hs].
  rewrite Hc, (IH Hs). simpl. by destruct (JS.dot c).
Qed.

Lemma allDot_app s t : JS.allDot (s +:+ t) = JS.allDot s && JS.allDot t.
Proof. induction s as [|c s IH]; simpl; [done|]. by rewrite IH, andb_assoc. Qed.

(** What the expression matches: a key without [=], an [=], a value, and no
    line terminator anywhere. *)
Lemma matchOverride_Some s k v :
  matchOverride s = Some (k, v) ↔
  s = k +:+ "=" +:+ v ∧ contains "=" k = false ∧ JS.allDot k = true ∧ JS.allDot v = true.
Proof.
  revert k v. induction s as [|c s IH]; intros k v; simpl.
  - split; [discriminate|]. intros (H & _). by destruct k.
  - destruct (Ascii.eqb_spec c "=") as [->|Hc]; simpl.
    + destruct (JS.allDot s) eqn:Hs.
      * split.
        -- intros [= <- <-]. done.
        -- intros (H & Hk & _ & _). destruct k as [|c' k]; simpl in *.
           ++ by injection H as ->.
           ++ injection H as <- _. done.
      * split.
        -- change (JS.dot "=") with true. cbv iota.
           destruct (matchOverride s) as [[k' v']|] eqn:Hm; [|discriminate].
           destruct (proj1 (IH k' v') eq_refl) as (-> & _ & Hk' & Hv').
           rewrite !allDot_app in Hs. rewrite Hk', Hv' in Hs. discriminate.
        -- intros (H & Hk & Hdk & Hdv). destruct k as [|c' k]; simpl in *.
           ++ injection H as H. rewrite H in Hs. congruence.
           ++ injection H as <- _. done.
    + split.
      * destruct (JS.dot c) eqn:Hd; [|discriminate].
        destruct (matchOverride s) as [[k' v']|] eqn:Hm; [|discriminate].
        intros [= <- <-]. destruct (proj1 (IH k' v') eq_refl) as (-> & Hk' & Hdk' & Hdv').
        simpl. rewrite Hd, Hk', Hdk'. repeat split; try done.
        by destruct (Ascii.eqb_spec c "=").
      * intros (H & Hk & Hdk & Hdv). destruct k as [|c' k]; simpl in *.
        -- injection H as -> _. done.
        -- injection H as <- ->. apply andb_prop in Hdk as [-> Hdk].
           apply orb_false_elim in Hk as [_ Hk].
           assert (Hm : matchOverride (k +:+ "=" +:+ v) = Some (k, v)) by (by apply IH).
           simpl in Hm. by rewrite Hm.
Qed.

Lemma matchOverride_key_value k v :
  contains "=" k = false → JS.allDot k = true → JS.allDot v = true →
  matchOverride (k +:+ "=" +:+ v) = Some (k, v).
Proof. intros. by apply matchOverride_Some. Qed.

Lemma rawKeyOf_no_key override :
  contains "=" override = false ∨ (∃ rest, override = String "=" rest) →
  rawKeyOf override = "".
Proof.
  unfold rawKeyOf. intros [H|[rest ->]].
  - by rewrite matchOverride_no_equals.
  - destruct (matchOverride (String "=" rest)) as [[k v]|] eqn:Hm; [|done].
    apply matchOverride_Some in Hm as (H & Hk & _ & _).
    destruct k as [|c k]; [done|]. simpl in *. injection H as <- _. done.
Qed.

Section ResolverFacts.
Context {number : Type}.
Variable Number : string → number.
Variable isNaN : number → bool.
Variable executionRuleValues : list string.

Abbreviation parseOverride' := (parseOverride Number isNaN executionRuleValues).
Abbreviation reduceOverrides' := (reduceOverrides Number isNaN executionRuleValues).
Abbreviation validateAndParseOverrides' := (validateAndParseOverrides Number isNaN executionRuleValues).

(** A key outside the allow-list reaches the [default:] branch. *)
Lemma parseOverride_unknown_key acc override :
  keyOf override ∉ allOverrideKeys →
  parseOverride' acc override = invalidKey (keyOf override).
Proof.
  intros Hnot. unfold parseOverride, isOneOf.
  assert (Hne : ∀ k, k ∈ allOverrideKeys → keyOf override ≠ k) by (intros k Hk Heq; apply Hnot; by rewrite Heq).
  repeat match goal with
  | |- context [existsb (String.eqb ?k) ?l] =>
      rewrite (isOneOf_false k l)
        by (intros k' Hk'; apply Hne; unfold allOverrideKeys; set_solver)
  | |- context [(?k =? ?c)%string] =>
      replace (k =? c)%string with false
        by (symmetry; apply String.eqb_neq, Hne; unfold allOverrideKeys; set_solver)
  end.
  reflexivity.
Qed.

(** The reduction stops at the first override that throws. *)
Lemma reduceOverrides_throw before override after acc acc' e :
  reduceOverrides' before acc = Return acc' →
  parseOverride' acc' override = Throw e →
  reduceOverrides' (before ++ override :: after)%list acc = Throw e.
Proof.
  revert acc. induction before as [|o before IH]; intros acc; simpl.
  - intros [= ->] ->. reflexivity.
  - destruct (parseOverride' acc o) as [acc1|e1]; simpl; [|discriminate].
    apply IH.
Qed.

(** C6.  An override whose top-level key is outside the allow-list makes the
    resolver fail.  The key [closestKey key] the failure may name is a key of
    the allow-list at the least edit distance from the given key; the message
    names it when that distance is at most 5 and is the plain
    [Invalid key: key] when the distance exceeds 5.  This holds for the
    reduction step on every accumulator, and for the resolver on every list in
    which the overrides before this one are accepted. *)
Theorem unknown_key_names_closest_key acc override :
  keyOf override ∉ allOverrideKeys →
  let key := keyOf override in
  closestKey key ∈ allOverrideKeys
  ∧ (∀ k, k ∈ allOverrideKeys →
          (Levenshtein.get (closestKey key) key ≤ Levenshtein.get k key)%nat)
  ∧ parseOverride' acc override = Throw (JsError (invalidKeyMessage key))
  ∧ ∀ before after acc0,
      reduceOverrides' before ∅ = Return acc0 →
      validateAndParseOverrides' (Some (before ++ override :: after)%list)
      = Throw (JsError (invalidKeyMessage key)).
Proof.
  intros Hnot key.
  assert (Hstep : ∀ a, parseOverride' a override = Throw (JsError (invalidKeyMessage key))).
  { intros a. rewrite parseOverride_unknown_key by done.
    unfold invalidKey, invalidKeyMessage. fold key.
    destruct (Nat.ltb_spec 5 (Levenshtein.get (closestKey key) key)).
    - rewrite bool_decide_eq_false_2 by lia. reflexivity.
    - rewrite bool_decide_eq_true_2 by lia. reflexivity. }
  destruct (closestKey_min key) as [Hin Hmin].
  repeat split; try done.
  intros before after acc0 Hbefore. simpl.
  by apply reduceOverrides_throw with (acc' := acc0).
Qed.

(** C9.  An override without [=], or with nothing before its first [=], has
    the empty top-level key: the resolver throws the invalid-key error (it
    suggests [body], the nearest key); the entry is neither skipped nor read
    as a value. *)
Theorem missing_separator_is_invalid_key acc override :
  contains "=" override = false ∨ (∃ rest, override = String "=" rest) →
  keyOf override = ""
  ∧ parseOverride' acc override = Throw (JsError "Invalid key: . Did you mean: body?")
  ∧ ∀ before after acc0,
      reduceOverrides' before ∅ = Return acc0 →
      validateAndParseOverrides' (Some (before ++ override :: after)%list)
      = Throw (JsError "Invalid key: . Did you mean: body?").
Proof.
  intros H.
  assert (Hkey : keyOf override = "") by (unfold keyOf; by rewrite rawKeyOf_no_key).
  assert (Hstep : ∀ a, parseOverride' a override
                       = Throw (JsError "Invalid key: . Did you mean: body?")).
  { intros a. rewrite parseOverride_unknown_key; rewrite Hkey.
    - vm_compute. reflexivity.
    - unfold allOverrideKeys. rewrite list_elem_of_In. simpl. intuition discriminate. }
  repeat split; try done.
  intros before after acc0 Hbefore. simpl.
  by apply reduceOverrides_throw with (acc' := acc0).
Qed.



End ResolverFacts.

Lemma unknown_key_names_closest_key_witness :
  (keyOf "startURL=https://example.org" ∉ allOverrideKeys)
  ∧ parseOverride (number := Z) (fun _ => 0%Z) (fun _ => false) [] ∅
      "startURL=https://example.org"
    = Throw (JsError "Invalid key: startURL. Did you mean: startUrl?").
Proof.
  assert (H : keyOf "startURL=https://example.org" ∉ allOverrideKeys).
  { rewrite list_elem_of_In. vm_compute. intuition discriminate. }
  split; [exact H|].
  exact (proj1 (proj2 (proj2
    (unknown_key_names_closest_key (fun _ => 0%Z) (fun _ => false) [] ∅
       "startURL=https://example.org" H)))).
Defined.

(** Beyond distance 5 no key is suggested. *)
Example unknown_key_far_from_every_key :
  parseOverride (number := Z) (fun _ => 0%Z) (fun _ => false) [] ∅ "zzzzzzzzzzzz=1"
  = Throw (JsError "Invalid key: zzzzzzzzzzzz").
Proof. vm_compute. reflexivity. Qed.

Lemma missing_separator_is_invalid_key_witness :
  (contains "=" "followRedirects" = false ∨ (∃ rest, "followRedirects" = String "=" rest))
  ∧ parseOverride (number := Z) (fun _ => 0%Z) (fun _ => false) [] ∅ "followRedirects"
    = Throw (JsError "Invalid key: . Did you mean: body?").
Proof.
  assert (H : contains "=" "followRedirects" = false
              ∨ (∃ rest, "followRedirects" = String "=" rest)) by (left; reflexivity).
  split; [exact H|].
  exact (proj1 (proj2
    (missing_separator_is_invalid_key (fun _ => 0%Z) (fun _ => false) [] ∅
       "followRedirects" H))).
Defined.


Example accepted_booleans :
  map acceptedBoolean ["true"; "TRUE"; "tRuE"; "1"; "false"; "False"; "0"]
  = [Some true; Some true; Some true; Some true; Some false; Some false; Some false]
  ∧ map acceptedBoolean [""; "yes"; "no"; " true"; "2"; "truee"; "on"]
    = [None; None; None; None; None; None; None].
Proof. split; vm_compute; reflexivity. Qed.

Example boolean_override_rejects_yes :
  parseOverride (number := Z) (fun _ => 0%Z) (fun _ => false) [] ∅ "followRedirects=yes"
  = Throw (JsError "Invalid boolean value: yes").
Proof. vm_compute. reflexivity. Qed.

(** ** The trigger-config builder *)

Section BuilderFacts.
Import RunTestsLib.

Lemma findIndex_Some {A} (p : A → bool) (l : list A) i :
  findIndex p l = Some i → ∃ a, l !! i = Some a ∧ p a = true.
Proof.
  revert i. induction l as [|a l IH]; intros i; simpl; [done|].
  destruct (p a) eqn:Hp.
  - intros [= <-]. eauto.
  - destruct (findIndex p l) as [j|]; [|done]. intros [= <-]. simpl. eauto.
Qed.

(** Splicing by id takes out the first entry with that id. *)
Lemma spliceById_cons id t l :
  spliceById id (t :: l) =
  if cfg_id t =? id then (Some t, l)
  else (fst (spliceById id l), t :: snd (spliceById id l)).
Proof.
  unfold spliceById. simpl. destruct (cfg_id t =? id); [done|].
  by destruct (findIndex _ l).
Qed.

Lemma spliceById_found id l t l' :
  spliceById id l = (Some t, l') → cfg_id t = id.
Proof.
  unfold spliceById. destruct (findIndex _ l) as [i|] eqn:Hi; [|done].
  apply findIndex_Some in Hi as (a & Ha & Hp). intros [= H _].
  rewrite Ha in H. injection H as <-. by apply String.eqb_eq.
Qed.

Lemma spliceById_filter id l x :
  fst (spliceById id l) = head (filter (fun t => cfg_id t = id) l)
  ∧ filter (fun t => cfg_id t = x) (snd (spliceById id l))
    = if decide (x = id) then tail (filter (fun t => cfg_id t = x) l)
      else filter (fun t => cfg_id t = x) l.
Proof.
  induction l as [|t l [IH1 IH2]]; [by destruct (decide _)|].
  rewrite spliceById_cons. destruct (String.eqb_spec (cfg_id t) id) as [Heq|Hne]; simpl.
  - rewrite (filter_cons_True (fun t => cfg_id t = id) t l Heq). split; [done|].
    destruct (decide (x = id)) as [->|Hx].
    + by rewrite (filter_cons_True (fun t => cfg_id t = id) t l Heq).
    + rewrite (filter_cons_False (fun t => cfg_id t = x) t l); [done|]. congruence.
  - rewrite (filter_cons_False (fun t => cfg_id t = id) t l Hne). split; [done|].
    destruct (decide (cfg_id t = x)) as [Htx|Htx].
    + rewrite !(filter_cons_True (fun t => cfg_id t = x) t _ Htx), IH2.
      destruct (decide (x = id)); [congruence|done].
    + rewrite !(filter_cons_False (fun t => cfg_id t = x) t _ Htx). apply IH2.
Qed.

Lemma makeTriggerConfig_id defaults id sq tc a b l1 l2 :
  spliceById id sq = (a, l1) → spliceById id tc = (b, l2) →
  cfg_id (makeTriggerConfig defaults id a b) = id.
Proof.
  intros Ha Hb. unfold makeTriggerConfig; simpl.
  destruct b as [t|]; [by apply spliceById_found in Hb|].
  destruct a as [t|]; [by apply spliceById_found in Ha|done].
Qed.

Lemma mapIds_ids defaults ids sq tc : map cfg_id (mapIds defaults ids sq tc) = ids.
Proof.
  revert sq tc. induction ids as [|id ids IH]; intros sq tc; [done|].
  cbn [mapIds].
  destruct (spliceById id sq) as [a sq'] eqn:Ha.
  destruct (spliceById id tc) as [b tc'] eqn:Hb.
  cbn [map]. f_equal; [|apply IH].
  exact (makeTriggerConfig_id defaults _ _ _ _ _ _ _ Ha Hb).
Qed.

(** Number of occurrences of [x] in [l]. *)
Abbreviation occurrences x l := (length (filter (fun y : string => y = x) l)).

(** The config built for the [i]-th id [x] is made of the entries of rank
    [n] among those carrying [x], [n] being the number of earlier occurrences
    of [x] in the id list. *)
Lemma mapIds_lookup defaults ids sq tc i x :
  ids !! i = Some x →
  mapIds defaults ids sq tc !! i =
  Some (makeTriggerConfig defaults x
          (filter (fun t => cfg_id t = x) sq !! occurrences x (take i ids))
          (filter (fun t => cfg_id t = x) tc !! occurrences x (take i ids))).
Proof.
  revert i sq tc. induction ids as [|id ids IH]; intros i sq tc; [done|].
  cbn [mapIds].
  destruct (spliceById id sq) as [a sq'] eqn:Ha.
  destruct (spliceById id tc) as [b tc'] eqn:Hb.
  pose proof (spliceById_filter id sq x) as [Ha1 Ha2].
  pose proof (spliceById_filter id tc x) as [Hb1 Hb2].
  rewrite Ha in Ha1, Ha2. rewrite Hb in Hb1, Hb2. simpl in *.
  destruct i as [|i]; simpl.
  - intros [= ->]. rewrite Ha1, Hb1. by rewrite !head_lookup.
  - intros Hi. rewrite (IH i sq' tc' Hi), Ha2, Hb2.
    destruct (decide (x = id)) as [->|Hne].
    + rewrite (filter_cons_True (fun y : string => y = id) id (take i ids) eq_refl).
      simpl. by rewrite !lookup_tail.
    + rewrite (filter_cons_False (fun y : string => y = x) id (take i ids)) by congruence.
      done.
Qed.

(** C3.  The id list the builder works from is the first non-empty one
    among the command-line ids, the ids of the search query and the ids of the
    test-config files, in this order (so it is one of the three lists as it
    stands, never a union); the trigger configs built carry exactly these ids,
    in order.  With no command-line id, search ids [A; B] and test-config id
    [C], the list is [A; B]. *)
Theorem first_non_empty_source :
  (∀ fromCli fromSearchQuery fromTestConfigs,
     testIdsToTrigger fromCli fromSearchQuery fromTestConfigs
     = match fromCli, fromSearchQuery with
       | _ :: _, _ => fromCli
       | [], _ :: _ => fromSearchQuery
       | [], [] => fromTestConfigs
       end)
  ∧ (∀ config testsFromTestConfigs testsFromSearchQuery,
       map cfg_id (triggerConfigsFrom config testsFromTestConfigs testsFromSearchQuery)
       = testIdsToTrigger (publicIds config) (map cfg_id testsFromSearchQuery)
           (map cfg_id testsFromTestConfigs))
  ∧ testIdsToTrigger [] ["A"; "B"] ["C"] = ["A"; "B"].
Proof.
  split; [|split].
  - intros [|a cli] [|b sq] tc; try reflexivity.
    unfold testIdsToTrigger. simpl. by destruct tc.
  - intros config tcs sqs. apply mapIds_ids.
  - reflexivity.
Qed.

Lemma lookup_union_perTestWins {V} (perTest defaults : gmap string V) key :
  (perTest ∪ defaults) !! key = perTestWins defaults perTest key.
Proof.
  unfold perTestWins. rewrite lookup_union.
  by destruct (perTest !! key), (defaults !! key).
Qed.

(** C7 as worded fails when an id is listed twice: the entry is consumed by
    the first occurrence, and the second gets the defaults alone. *)
Lemma overrides_of_repeated_id_counterexample :
  ¬ overridesAsClaimed Scenarios.twiceConfig [Scenarios.withPollingTimeout "aaa" 60] [].
Proof.
  intros H.
  destruct (H 1%nat "aaa"
              (makeTriggerConfig (defaultTestOverrides Scenarios.twiceConfig) "aaa" None None)
              eq_refl eq_refl) as (o & Ho & Hkeys).
  injection Ho as <-. specialize (Hkeys "pollingTimeout").
  vm_compute in Hkeys. discriminate.
Qed.

(** C7, amended.  The config built for the [i]-th id [x] of the chosen list
    has as override set the default overrides merged with the per-test
    overrides of a test-config entry carrying [x], the per-test value winning
    on every key both have.  Entries are consumed in order: the occurrence of
    [x] that [n] occurrences precede takes the entry of rank [n] among those
    carrying [x], and the defaults alone when no such entry is left; the first
    occurrence takes the first matching entry. *)
Theorem per_test_overrides_win config testsFromTestConfigs testsFromSearchQuery i x :
  let ids := testIdsToTrigger (publicIds config) (map cfg_id testsFromSearchQuery)
               (map cfg_id testsFromTestConfigs) in
  ids !! i = Some x →
  let n := occurrences x (take i ids) in
  let entry := filter (fun t => cfg_id t = x) testsFromTestConfigs !! n in
  (n = 0%nat → entry = matchingEntry x testsFromTestConfigs)
  ∧ ∃ t o,
      triggerConfigsFrom config testsFromTestConfigs testsFromSearchQuery !! i = Some t
      ∧ cfg_id t = x
      ∧ testOverrides t = Some o
      ∧ ∀ key, o !! key
               = perTestWins (spread (defaultTestOverrides config))
                   (spread (entry ≫= testOverrides)) key.
Proof.
  intros ids Hi n entry. split.
  - intros Hn. unfold entry, matchingEntry. by rewrite Hn, head_lookup.
  - unfold triggerConfigsFrom. fold ids.
    rewrite (mapIds_lookup _ _ _ _ _ _ Hi). fold n. fold entry.
    eexists _, _. split; [reflexivity|]. split; [|split; [reflexivity|]].
    + pose proof (mapIds_ids (defaultTestOverrides config) ids
                    testsFromSearchQuery testsFromTestConfigs) as Hids.
      apply (f_equal (fun l => l !! i)) in Hids.
      rewrite list_lookup_fmap, (mapIds_lookup _ _ _ _ _ _ Hi), Hi in Hids.
      by injection Hids.
    + intros key. apply lookup_union_perTestWins.
Qed.

Lemma per_test_overrides_win_witness :
  testIdsToTrigger (publicIds Scenarios.twiceConfig) (map cfg_id [])
    (map cfg_id [Scenarios.withPollingTimeout "aaa" 60]) !! 0%nat = Some "aaa"
  ∧ ∃ t o,
      triggerConfigsFrom Scenarios.twiceConfig [Scenarios.withPollingTimeout "aaa" 60] []
        !! 0%nat = Some t
      ∧ testOverrides t = Some o
      ∧ o !! "pollingTimeout" = Some (Internal.VNumber 60%Z).
Proof.
  split; [reflexivity|].
  destruct (per_test_overrides_win Scenarios.twiceConfig
              [Scenarios.withPollingTimeout "aaa" 60] [] 0 "aaa" eq_refl)
    as (_ & t & o & Ht & _ & Ho & Hkeys).
  exists t, o. split; [exact Ht|]. split; [exact Ho|].
  rewrite Hkeys. vm_compute. reflexivity.
Defined.

End BuilderFacts.

(** ** The poll deadline *)

Section DeadlineFacts.
Import RunTestsLib.

Lemma fold_max_spec xs m :
  ∃ d, fold_left (fun acc x => match acc with
                               | NegInfinity => Num x
                               | Num m => Num (Z.max m x)
                               end) xs (Num m) = Num d
       ∧ (d = m ∨ d ∈ xs) ∧ (m ≤ d)%Z ∧ ∀ x, x ∈ xs → (x ≤ d)%Z.
Proof.
  revert m. induction xs as [|x xs IH]; intros m; simpl.
  - exists m. repeat split; [by left|lia|]. intros x Hx. by apply elem_of_nil in Hx.
  - destruct (IH (Z.max m x)) as (d & Hd & Hin & Hle & Hall).
    exists d. split; [done|]. split; [|split; [lia|]].
    + destruct Hin as [->|Hin]; [|right; set_solver].
      destruct (Z.max_spec m x) as [[_ ->]|[_ ->]]; [right; set_solver|by left].
    + intros y Hy. apply elem_of_cons in Hy as [->|Hy]; [lia|by apply Hall].
Qed.

(** [Math.max] of at least one number is the largest of them. *)
Lemma Math_max_spec xs :
  xs ≠ [] → ∃ d, Math_max xs = Num d ∧ d ∈ xs ∧ ∀ x, x ∈ xs → (x ≤ d)%Z.
Proof.
  destruct xs as [|x xs]; [done|]. intros _. unfold Math_max. simpl.
  destruct (fold_max_spec xs x) as (d & Hd & Hin & Hle & Hall).
  exists d. split; [done|]. split.
  - destruct Hin as [->|Hin]; set_solver.
  - intros y Hy. apply elem_of_cons in Hy as [->|Hy]; [done|by apply Hall].
Qed.

Variable DEFAULT_BATCH_TIMEOUT : Z.

Lemma maxPollingTimeout_global config triggerConfigs b :
  triggerConfigs ≠ [] → batchTimeout config = Some b → b ≠ 0%Z →
  maxPollingTimeout DEFAULT_BATCH_TIMEOUT config triggerConfigs = Num b.
Proof.
  intros Hne Hb Hb0. unfold maxPollingTimeout.
  destruct (Math_max_spec
              (map (fun t => orElse (batchTimeout config)
                               (orElse (pollingTimeoutOf t)
                                  (orElse (pollingTimeout config) DEFAULT_BATCH_TIMEOUT)))
                 triggerConfigs)) as (d & -> & Hin & _).
  { by destruct triggerConfigs. }
  apply list_elem_of_fmap in Hin as (t & -> & _).
  rewrite Hb. simpl. by destruct (Z.eqb_spec b 0).
Qed.

Lemma maxPollingTimeout_widest config triggerConfigs :
  triggerConfigs ≠ [] → batchTimeout config = None ∨ batchTimeout config = Some 0%Z →
  ∃ d, maxPollingTimeout DEFAULT_BATCH_TIMEOUT config triggerConfigs = Num d
       ∧ (∃ t, t ∈ triggerConfigs ∧ d = perConfigDeadline DEFAULT_BATCH_TIMEOUT config t)
       ∧ ∀ t, t ∈ triggerConfigs → (perConfigDeadline DEFAULT_BATCH_TIMEOUT config t ≤ d)%Z.
Proof.
  intros Hne Hb. unfold maxPollingTimeout.
  assert (Heq : map (fun t => orElse (batchTimeout config)
                               (orElse (pollingTimeoutOf t)
                                  (orElse (pollingTimeout config) DEFAULT_BATCH_TIMEOUT)))
                  triggerConfigs
                = map (perConfigDeadline DEFAULT_BATCH_TIMEOUT config) triggerConfigs).
  { apply map_ext. intros t. by destruct Hb as [-> | ->]. }
  rewrite Heq.
  destruct (Math_max_spec (map (perConfigDeadline DEFAULT_BATCH_TIMEOUT config) triggerConfigs))
    as (d & -> & Hin & Hall).
  { by destruct triggerConfigs. }
  exists d. split; [done|]. split.
  - apply list_elem_of_fmap in Hin as (t & -> & Ht). eauto.
  - intros t Ht. apply Hall. by apply list_elem_of_fmap_2.
Qed.

End DeadlineFacts.

(** C1 as worded fails under a global batch timeout: it is used for every
    test, whatever the overrides of the tests. *)
Lemma deadline_under_global_batch_timeout_counterexample :
  let config := RunTestsLib.mkConfig [] None None (Some 30%Z) None false None false false true
                  "datadoghq.com" "app" in
  let triggerConfigs :=
    [Scenarios.withPollingTimeout "aaa" 60; Scenarios.withPollingTimeout "bbb" 120] in
  RunTestsLib.maxPollingTimeout 1800 config triggerConfigs = RunTestsLib.Num 30
  ∧ claimedDeadline 1800 config triggerConfigs = RunTestsLib.Num 120
  ∧ RunTestsLib.maxPollingTimeout 1800 config triggerConfigs
    ≠ claimedDeadline 1800 config triggerConfigs.
Proof. vm_compute. repeat split; discriminate. Qed.

(** ** The run orchestrator *)

(** Unfolds a run into the tree of its paths, one case per answer of a
    collaborator and per test of the code. *)
Ltac run_unfold :=
  cbv [RunTestsLib.executeTests RunTestsLib.getTriggerConfigs RunTestsLib.stopTunnel
       RunTestsLib.authorizationOr mbind mret RunTestsLib.M_bind RunTestsLib.M_ret
       RunTestsLib.bind RunTestsLib.ret RunTestsLib.throw RunTestsLib.tryCatch
       RunTestsLib.tryFinally RunTestsLib.call RunTestsLib.emit RunTestsLib.getTunnel
       RunTestsLib.setTunnel RunTestsLib.initial RunTestsLib.trace RunTestsLib.tunnelVar].

Ltac run_case :=
  match goal with
  | |- context [match ?c with Return _ => _ | Throw _ => _ end] =>
      destruct c eqn:?
  | |- context [if ?b then _ else _] => destruct b eqn:?
  end.

Ltac run_paths := run_unfold; repeat (run_case; cbn [app fst snd]).

(** Membership of an event in an explicit trace, event by event. *)
Ltac trace_cases H :=
  repeat (apply elem_of_cons in H as [H|H];
          [try discriminate H; try (injection H as H); subst |]);
  try (by apply elem_of_nil in H).

(** Finds an event in an explicit trace. *)
Ltac in_trace := repeat first [apply list_elem_of_here | apply list_elem_of_further].

(** Two records of the answer of one call agree: [H] and another hypothesis
    about the same call give the same completion. *)
Ltac same_call H :=
  match goal with
  | H2 : ?lhs = ?rhs |- _ =>
      lazymatch H2 with H => fail | _ => idtac end;
      let X := fresh "X" in
      pose proof (eq_trans (eq_sym H) H2 : _ = rhs) as X;
      first [discriminate X | injection X as X; subst]
  end.

Section RunFacts.
Import RunTestsLib.

Variable DEFAULT_BATCH_TIMEOUT : Z.
Variable isForbiddenError : error → bool.
Variable instanceofCiError : error → bool.
Variable replaceGlobalWithDefaultTestOverrides : RunTestsCommandConfig → RunTestsCommandConfig.
Variable moveLocationsToTestOverrides : RunTestsCommandConfig → RunTestsCommandConfig.
Variable replacePollingTimeoutWithBatchTimeout : RunTestsCommandConfig → option Z.

Abbreviation normalize' :=
  (normalize replaceGlobalWithDefaultTestOverrides moveLocationsToTestOverrides
     replacePollingTimeoutWithBatchTimeout).
Abbreviation executeTests' :=
  (executeTests DEFAULT_BATCH_TIMEOUT isForbiddenError instanceofCiError
     replaceGlobalWithDefaultTestOverrides moveLocationsToTestOverrides
     replacePollingTimeoutWithBatchTimeout).

Lemma stopTunnel_never_started s :
  tunnelVar s = None → stopTunnel s = (s, Return ()).
Proof. intros H. cbv [stopTunnel mbind M_bind bind getTunnel ret]. by rewrite H. Qed.

(** C2.  A run stops its tunnel exactly once whenever it has started it,
    whatever the exit (the run returns, the trigger submission fails, the poll
    fails, the poll times out, the tunnel fails to start): the stop is the last
    call of the run and the only stop.  A run that never starts the tunnel
    never calls stop, and the stop step with no tunnel at hand does nothing and
    returns. *)
Theorem tunnel_stopped_exactly_once api config s r :
  executeTests' api config initial = (s, r) →
  (∀ t, EvTunnelStart t ∈ trace s →
        filter isTunnelStop (trace s) = [EvTunnelStop t]
        ∧ List.last (trace s) EvGetTestConfigs = EvTunnelStop t)
  ∧ (existsb isTunnelStart (trace s) = false → filter isTunnelStop (trace s) = [])
  ∧ ∀ s0, tunnelVar s0 = None → stopTunnel s0 = (s0, Return ()).
Proof.
  intros Hrun. split; [|split; [|apply stopTunnel_never_started]];
    revert Hrun; run_paths; intros [= <- <-]; cbn [trace].
  all: try (intros t Ht; trace_cases Ht; split; reflexivity).
  all: try (intros Hno; (discriminate Hno || reflexivity)).
Qed.

(** C5.  When the poll throws, the run throws: the batch-timeout-runaway
    error as it is (the very value), every other error as the critical error
    [POLL_RESULTS_FAILED] carrying its message.  The two are different
    values, so a caller tells them apart. *)
Theorem poll_timeout_propagates_unwrapped api config s r trigger tests options tun e :
  executeTests' api config initial = (s, r) →
  EvWaitForResults trigger tests options tun ∈ trace s →
  waitForResults api trigger tests options tun = Throw e →
  (∀ m, e = BatchTimeoutRunawayError m → r = Throw (BatchTimeoutRunawayError m))
  ∧ ((∀ m, e ≠ BatchTimeoutRunawayError m) →
     r = Throw (CriticalError "POLL_RESULTS_FAILED" (message_of e)))
  ∧ ∀ m, BatchTimeoutRunawayError m ≠ CriticalError "POLL_RESULTS_FAILED" (message_of e).
Proof.
  intros Hrun Hev Hpoll. split; [|split; [|done]];
    revert Hrun Hev; run_paths; intros [= <- <-]; cbn [trace]; intros Hev;
    trace_cases Hev.
  all: same_call Hpoll.
  all: try (intros m ->; (reflexivity || discriminate)).
  all: intros Hne; try reflexivity.
  all: match goal with
       | H : instanceofBatchTimeoutRunawayError ?x = true |- _ =>
           destruct x; try discriminate H; exfalso; eapply Hne; reflexivity
       end.
Qed.

(** C8.  When the trigger the backend returns says that the selective re-run
    was rate-limited, the run tells the reporter so and goes on: it polls the
    batch for every test it triggered, and ends as the poll ends. *)
Theorem rate_limited_rerun_is_reported_not_raised api config s r payloads selective timeout
    trigger :
  executeTests' api config initial = (s, r) →
  EvRunTests payloads selective timeout ∈ trace s →
  runTests api payloads selective timeout = Return trigger →
  selective_rerun_rate_limited trigger = true →
  EvReporterError rateLimitedMessage ∈ trace s
  ∧ ∃ tcs fromSearch failOnMissing tun tt options tunnel,
      EvGetTestsToTrigger tcs fromSearch failOnMissing tun ∈ trace s
      ∧ getTestsToTrigger api tcs fromSearch failOnMissing tun = Return tt
      ∧ EvWaitForResults trigger (tests tt) options tunnel ∈ trace s
      ∧ r = match waitForResults api trigger (tests tt) options tunnel with
            | Return results =>
                Return {| results := results;
                          summary := {| initialSummary := tt_initialSummary tt;
                                        batchId := batch_id trigger |} |}
            | Throw e =>
                Throw (if instanceofBatchTimeoutRunawayError e then e
                       else CriticalError "POLL_RESULTS_FAILED" (message_of e))
            end.
Proof.
  intros Hrun Hev Htrigger Hlimited.
  revert Hrun Hev; run_paths; intros [= <- <-]; cbn [trace]; intros Hev;
    trace_cases Hev.
  all: same_call Htrigger.
  all: try congruence.
  all: split; [in_trace|].
  all: eexists _, _, _, _, _, _, _.
  all: split; [in_trace|].
  all: split; [eassumption|].
  all: split; [in_trace|].
  all: match goal with
       | H : waitForResults _ _ _ _ _ = ?rhs
         |- context [match ?c with Return _ => _ | Throw _ => _ end] =>
           replace c with rhs by (symmetry; exact H)
       end.
  all: try match goal with
       | H : instanceofBatchTimeoutRunawayError _ = _ |- _ => rewrite H
       end.
  all: reflexivity.
Qed.

(** C4, amended.  A forbidden error is turned into the critical error
    [AUTHORIZATION_ERROR] when it comes from gathering the trigger configs
    (test-config files, search query) or from looking the tests up (unless it
    is a [CiError], which passes through).  From the later calls it keeps the
    reason code of the step: [UNAVAILABLE_TUNNEL_CONFIG] for the pre-signed
    URL, [TRIGGER_TESTS_FAILED] for the trigger submission,
    [POLL_RESULTS_FAILED] for the poll. *)
Theorem permission_error_reason_codes api config s r ev e :
  executeTests' api config initial = (s, r) →
  ev ∈ trace s →
  thrownBy api (normalize' config) ev = Some e →
  isForbiddenError e = true →
  r = Throw (surfacedAs isForbiddenError instanceofCiError ev e)
  ∧ surfacedAs isForbiddenError instanceofCiError ev e
    = match ev with
      | EvGetTestConfigs | EvGetTestsFromSearchQuery =>
          CriticalError "AUTHORIZATION_ERROR" (message_of e)
      | EvGetTestsToTrigger _ _ _ _ =>
          if instanceofCiError e then e
          else CriticalError "AUTHORIZATION_ERROR" (message_of e)
      | EvGetTunnelPresignedURL _ => CriticalError "UNAVAILABLE_TUNNEL_CONFIG" (message_of e)
      | EvTunnelStart _ => CriticalError "TUNNEL_START_FAILED" (message_of e)
      | EvRunTests _ _ _ => CriticalError "TRIGGER_TESTS_FAILED" (message_of e)
      | EvWaitForResults _ _ _ _ =>
          if instanceofBatchTimeoutRunawayError e then e
          else CriticalError "POLL_RESULTS_FAILED" (message_of e)
      | EvTunnelStop _ | EvReporterError _ => e
      end.
Proof.
  intros Hrun Hev Hthrown Hforbidden. split.
  - revert Hrun Hev; run_paths; intros [= <- <-]; cbn [trace]; intros Hev;
      trace_cases Hev; unfold thrownBy in Hthrown.
    all: try discriminate Hthrown.
    all: match goal with
         | H : ?c = ?rhs |- _ =>
             let X := fresh "X" in
             assert (X : thrown rhs = Some e) by (rewrite <- H; exact Hthrown);
             simpl in X; first [discriminate X | injection X as <-]
         end.
    all: cbv [surfacedAs authorizationOr].
    all: repeat match goal with
         | H : ?b = _ |- context [if ?b then _ else _] => rewrite H
         end.
    all: try reflexivity.
    all: congruence.
  - unfold surfacedAs, authorizationOr. rewrite Hforbidden. reflexivity.
Qed.

(** C1, amended.  The deadline handed to the poller is computed from the
    trigger configs of the run (there is at least one).  When the global batch
    timeout is set (and not 0) the deadline is that timeout, whatever the
    overrides of the tests.  Otherwise it is the largest, over the trigger
    configs, of the config's own [pollingTimeout] override if set, else the
    global [pollingTimeout] if set, else [DEFAULT_BATCH_TIMEOUT].  With
    overrides of 60 and 120 and no global batch timeout it is 120. *)
Theorem effective_poll_deadline api config s r trigger tests options tun :
  executeTests' api config initial = (s, r) →
  EvWaitForResults trigger tests options tun ∈ trace s →
  let config' := normalize' config in
  (∃ testsFromTestConfigs testsFromSearchQuery,
     getTestConfigs api config' = Return testsFromTestConfigs
     ∧ getTestsFromSearchQuery api config' = Return testsFromSearchQuery
     ∧ let triggerConfigs :=
         triggerConfigsFrom config' testsFromTestConfigs testsFromSearchQuery in
       triggerConfigs ≠ []
       ∧ po_batchTimeout options
         = maxPollingTimeout DEFAULT_BATCH_TIMEOUT config' triggerConfigs
       ∧ (∀ b, batchTimeout config' = Some b → b ≠ 0%Z →
               po_batchTimeout options = Num b)
       ∧ (batchTimeout config' = None ∨ batchTimeout config' = Some 0%Z →
          ∃ d, po_batchTimeout options = Num d
               ∧ (∃ t, t ∈ triggerConfigs
                       ∧ d = perConfigDeadline DEFAULT_BATCH_TIMEOUT config' t)
               ∧ ∀ t, t ∈ triggerConfigs →
                      (perConfigDeadline DEFAULT_BATCH_TIMEOUT config' t ≤ d)%Z))
  ∧ ∀ cfg id1 id2,
      batchTimeout cfg = None →
      maxPollingTimeout DEFAULT_BATCH_TIMEOUT cfg
        [Scenarios.withPollingTimeout id1 60; Scenarios.withPollingTimeout id2 120]
      = Num 120.
Proof.
  intros Hrun Hev config'. split.
  - assert (Hcall : ∃ a b,
              getTestConfigs api config' = Return a
              ∧ getTestsFromSearchQuery api config' = Return b
              ∧ triggerConfigsFrom config' a b ≠ []
              ∧ po_batchTimeout options
                = maxPollingTimeout DEFAULT_BATCH_TIMEOUT config'
                    (triggerConfigsFrom config' a b)).
    { subst config'. revert Hrun Hev; run_paths; intros [= <- <-]; cbn [trace];
        intros Hev; trace_cases Hev.
      all: eexists _, _; split; [reflexivity|]; split; [reflexivity|].
      all: split; [|reflexivity].
      all: match goal with
           | H : (length ?l =? 0)%nat = false |- ?l' ≠ [] =>
               change (l ≠ []); intros Hnil; rewrite Hnil in H; discriminate H
           end. }
    destruct Hcall as (a & b & Ha & Hb & Hne & Hd).
    exists a, b. split; [done|]. split; [done|]. cbv zeta.
    split; [done|]. split; [done|]. split.
    + intros t Ht Ht0. rewrite Hd. by apply maxPollingTimeout_global.
    + intros Hnone. rewrite Hd. by apply maxPollingTimeout_widest.
  - intros cfg id1 id2 Hnone. unfold maxPollingTimeout. rewrite Hnone. reflexivity.
Qed.

End RunFacts.

(** *** The statements on concrete runs *)

Section RunExamples.
Import RunTestsLib Scenarios.

Lemma run_eq api config :
  executeTests 1800 isForbidden403 isCiError (fun c => c) (fun c => c) keepBatchTimeout
    api config initial
  = ((run api config).1, (run api config).2).
Proof. unfold run. by destruct (executeTests _ _ _ _ _ _ _ _ _). Defined.

Lemma effective_poll_deadline_witness :
  ∃ trigger tests options tun,
    EvWaitForResults trigger tests options tun
      ∈ trace (run (collaborators (Return (batch false)) (Return [])) baseConfig).1
    ∧ po_batchTimeout options = Num 120.
Proof.
  pose (api := collaborators (Return (batch false)) (Return [])).
  pose (tun := {| tunnel_url := "wss://tunnel"; tunnel_ids := ["aaa"; "bbb"] |}).
  pose (options := {| po_datadogSite := "datadoghq.com"; po_failOnCriticalErrors := false;
                      po_failOnTimeout := true; po_subdomain := "app";
                      po_batchTimeout := Num 120 |}).
  assert (Hev : EvWaitForResults (batch false) (tests twoTests) options (Some tun)
                  ∈ trace (run api baseConfig).1).
  { vm_compute. in_trace. }
  exists (batch false), (tests twoTests), options, (Some tun). split; [exact Hev|].
  destruct (effective_poll_deadline 1800 isForbidden403 isCiError (fun c => c) (fun c => c)
              keepBatchTimeout api baseConfig _ _ _ _ _ _ (run_eq api baseConfig) Hev)
    as [(a & b & Ha & Hb & Hne & Hd & _) _].
  reflexivity.
Defined.

Lemma tunnel_stopped_exactly_once_witness :
  let outcome := run (collaborators (Throw (JsError "socket hang up")) (Return [])) baseConfig in
  EvTunnelStart theTunnel ∈ trace outcome.1
  ∧ filter isTunnelStop (trace outcome.1) = [EvTunnelStop theTunnel]
  ∧ outcome.2 = Throw (CriticalError "TRIGGER_TESTS_FAILED" "socket hang up").
Proof.
  intros outcome.
  pose (api := collaborators (Throw (JsError "socket hang up")) (Return [])).
  assert (Hev : EvTunnelStart theTunnel ∈ trace (run api baseConfig).1)
    by (vm_compute; in_trace).
  split; [exact Hev|]. split; [|reflexivity].
  exact (proj1 (proj1 (tunnel_stopped_exactly_once 1800 isForbidden403 isCiError
                         (fun c => c) (fun c => c) keepBatchTimeout api baseConfig _ _
                         (run_eq api baseConfig)) theTunnel Hev)).
Defined.

(** The four exits the specification names, tunnel started: one stop each. *)
Example tunnel_stop_on_each_exit :
  let stops api := filter isTunnelStop (trace (run api baseConfig).1) in
  stops (collaborators (Return (batch false)) (Return [])) = [EvTunnelStop theTunnel]
  ∧ stops (collaborators (Throw (JsError "socket hang up")) (Return []))
    = [EvTunnelStop theTunnel]
  ∧ stops (collaborators (Return (batch false)) (Throw (JsError "socket hang up")))
    = [EvTunnelStop theTunnel]
  ∧ stops (collaborators (Return (batch false)) (Throw (BatchTimeoutRunawayError "late")))
    = [EvTunnelStop theTunnel].
Proof. vm_compute. repeat split. Qed.

(** C4 as worded fails: a forbidden trigger submission ends the run with
    [TRIGGER_TESTS_FAILED]. *)
Lemma forbidden_trigger_counterexample :
  let api := collaborators (Throw forbidden) (Return []) in
  ¬ permissionErrorsAsClaimed isForbidden403 api baseConfig (run api baseConfig).
Proof.
  intros api Hclaim.
  destruct (Hclaim
    (EvRunTests
       [ {| payload_public_id := "aaa";
            payload_tunnel := Some {| host := "localhost"; port := 22 |} |};
         {| payload_public_id := "bbb";
            payload_tunnel := Some {| host := "localhost"; port := 22 |} |} ]
       None None)
    forbidden) as [m Hm].
  - vm_compute. in_trace.
  - reflexivity.
  - reflexivity.
  - reflexivity.
  - vm_compute in Hm. discriminate Hm.
Qed.

Lemma permission_error_reason_codes_witness :
  let api := collaboratorsWith (Throw forbidden) (Return (batch false)) (Return []) in
  ∃ ev,
    ev ∈ trace (run api baseConfig).1
    ∧ thrownBy api baseConfig ev = Some forbidden
    ∧ isForbidden403 forbidden = true
    ∧ (run api baseConfig).2 = Throw (CriticalError "AUTHORIZATION_ERROR" "Forbidden").
Proof.
  intros api.
  pose (ev := EvGetTestsToTrigger
                (triggerConfigsFrom baseConfig
                   [withPollingTimeout "aaa" 60; withPollingTimeout "bbb" 120] [])
                false false true).
  assert (Hev : ev ∈ trace (run api baseConfig).1) by (vm_compute; in_trace).
  assert (Hthrown : thrownBy api baseConfig ev = Some forbidden) by reflexivity.
  assert (Hforbidden : isForbidden403 forbidden = true) by reflexivity.
  exists ev. split; [exact Hev|]. split; [exact Hthrown|]. split; [exact Hforbidden|].
  exact (proj1 (permission_error_reason_codes 1800 isForbidden403 isCiError
                  (fun c => c) (fun c => c) keepBatchTimeout api baseConfig _ _ ev forbidden
                  (run_eq api baseConfig) Hev Hthrown Hforbidden)).
Defined.

Lemma poll_timeout_propagates_unwrapped_witness :
  let api := collaborators (Return (batch false)) (Throw (BatchTimeoutRunawayError "late")) in
  ∃ trigger tests options tun,
    EvWaitForResults trigger tests options tun ∈ trace (run api baseConfig).1
    ∧ waitForResults api trigger tests options tun = Throw (BatchTimeoutRunawayError "late")
    ∧ (run api baseConfig).2 = Throw (BatchTimeoutRunawayError "late").
Proof.
  intros api.
  pose (options := {| po_datadogSite := "datadoghq.com"; po_failOnCriticalErrors := false;
                      po_failOnTimeout := true; po_subdomain := "app";
                      po_batchTimeout := Num 120 |}).
  assert (Hev : EvWaitForResults (batch false) (tests twoTests) options (Some theTunnel)
                  ∈ trace (run api baseConfig).1) by (vm_compute; in_trace).
  assert (Hpoll : waitForResults api (batch false) (tests twoTests) options (Some theTunnel)
                  = Throw (BatchTimeoutRunawayError "late")) by reflexivity.
  exists (batch false), (tests twoTests), options, (Some theTunnel).
  split; [exact Hev|]. split; [exact Hpoll|].
  exact (proj1 (poll_timeout_propagates_unwrapped 1800 isForbidden403 isCiError
                  (fun c => c) (fun c => c) keepBatchTimeout api baseConfig _ _ _ _ _ _ _
                  (run_eq api baseConfig) Hev Hpoll) "late" eq_refl).
Defined.

(** A poll that fails for another reason is wrapped. *)
Example poll_failure_is_wrapped :
  (run (collaborators (Return (batch false)) (Throw (JsError "socket hang up")))
     baseConfig).2
  = Throw (CriticalError "POLL_RESULTS_FAILED" "socket hang up").
Proof. reflexivity. Qed.

Lemma rate_limited_rerun_is_reported_not_raised_witness :
  let api := collaborators (Return (batch true)) (Return [ {| result_id := "r1"; passed := true |} ]) in
  ∃ payloads,
    EvRunTests payloads None None ∈ trace (run api baseConfig).1
    ∧ runTests api payloads None None = Return (batch true)
    ∧ selective_rerun_rate_limited (batch true) = true
    ∧ EvReporterError rateLimitedMessage ∈ trace (run api baseConfig).1
    ∧ (run api baseConfig).2
      = Return {| results := [ {| result_id := "r1"; passed := true |} ];
                  summary := {| initialSummary := ∅; batchId := "batch-1" |} |}.
Proof.
  intros api.
  pose (payloads :=
    [ {| payload_public_id := "aaa";
         payload_tunnel := Some {| host := "localhost"; port := 22 |} |};
      {| payload_public_id := "bbb";
         payload_tunnel := Some {| host := "localhost"; port := 22 |} |} ]).
  assert (Hev : EvRunTests payloads None None ∈ trace (run api baseConfig).1)
    by (vm_compute; in_trace).
  assert (Htrigger : runTests api payloads None None = Return (batch true)) by reflexivity.
  assert (Hlimited : selective_rerun_rate_limited (batch true) = true) by reflexivity.
  exists payloads. split; [exact Hev|]. split; [exact Htrigger|]. split; [exact Hlimited|].
  split; [|reflexivity].
  exact (proj1 (rate_limited_rerun_is_reported_not_raised 1800 isForbidden403 isCiError
                  (fun c => c) (fun c => c) keepBatchTimeout api baseConfig _ _ _ _ _ _
                  (run_eq api baseConfig) Hev Htrigger Hlimited)).
Defined.

End RunExamples.

(** * Further properties *)

Import Coverage.

(** ** The override resolver, continued *)

Ltac is_literal s :=
  lazymatch s with
  | EmptyString => idtac
  | String (Ascii _ _ _ _ _ _ _ _) ?s' => is_literal s'
  end.

(** Evaluates the tests of the [switch] on a key that is known. *)
Ltac switch_on_key :=
  repeat match goal with
  | |- context [isOneOf ?k ?l] =>
      is_literal k;
      let b := eval vm_compute in (isOneOf k l) in change (isOneOf k l) with b
  | |- context [String.eqb ?k ?c] =>
      is_literal k;
      let b := eval vm_compute in (String.eqb k c) in change (String.eqb k c) with b
  end;
  cbv beta iota.

(** *** Trimming and splitting *)










Lemma split_cons sep k rest :
  contains sep k = false →
  JS.split sep (k +:+ String sep rest) = k :: JS.split sep rest.
Proof.
  induction k as [|c k IH]; simpl.
  - by rewrite Ascii.eqb_refl.
  - intros [Hc Hk]%orb_false_elim. rewrite Hc, (IH Hk). done.
Qed.

Lemma split_whole sep k : contains sep k = false → JS.split sep k = [k].
Proof.
  induction k as [|c k IH]; simpl; [done|].
  intros [Hc Hk]%orb_false_elim. by rewrite Hc, (IH Hk).
Qed.

Lemma append_assoc a b c : (a +:+ b) +:+ c = a +:+ b +:+ c.
Proof. induction a as [|d a IH]; simpl; [done|by rewrite IH]. Qed.

Lemma append_empty a : a +:+ "" = a.
Proof. induction a as [|d a IH]; simpl; [done|by rewrite IH]. Qed.

(** A string with an [=] is cut at the first one. *)
Lemma first_equals s :
  contains "=" s = true → ∃ k v, s = k +:+ "=" +:+ v ∧ contains "=" k = false.
Proof.
  induction s as [|c s IH]; simpl; [done|].
  destruct (Ascii.eqb_spec c "=") as [->|Hc]; simpl.
  - intros _. by exists "", s.
  - intros (k & v & -> & Hk)%IH. exists (String c k), v. split; [done|].
    simpl. rewrite Hk. by destruct (Ascii.eqb_spec c "=").
Qed.

Section ResolverMore.
Context {number : Type}.
Variable Number : string → number.
Variable isNaN : number → bool.
Variable executionRuleValues : list string.

Abbreviation step := (parseOverride Number isNaN executionRuleValues).
Abbreviation coerce := (parseOverrideValue Number isNaN executionRuleValues).
Abbreviation reduce := (reduceOverrides Number isNaN executionRuleValues).
Abbreviation resolve := (validateAndParseOverrides Number isNaN executionRuleValues).

Lemma setSub_Return (acc : gmap string (overrideValue number)) key subKey v acc' :
  setSub acc key subKey v = Return acc' →
  ∃ o, default (VObject ∅) (acc !! key) = VObject o
       ∧ acc' = <[key := VObject (<[subKey := v]> o)]> acc.
Proof.
  unfold setSub. destruct (default (VObject ∅) (acc !! key)); try discriminate.
  intros [= <-]. eauto.
Qed.

(** An accepted override writes the property named by its key, a key of the
    allow-list, and leaves every other property of the accumulator alone. *)
Lemma parseOverride_frame acc override acc' :
  step acc override = Return acc' →
  keyOf override ∈ allOverrideKeys
  ∧ is_Some (acc' !! keyOf override)
  ∧ ∀ k, k ≠ keyOf override → acc' !! k = acc !! k.
Proof.
  intros Hstep.
  destruct (decide (keyOf override ∈ allOverrideKeys)) as [Hin|Hout].
  2: { rewrite parseOverride_unknown_key in Hstep by done.
       unfold invalidKey in Hstep. by destruct (_ <? _)%nat. }
  split; [done|].
  assert (Hwritten : ∃ w, acc' = <[keyOf override := w]> acc).
  { revert Hstep. unfold parseOverride.
    generalize (valueOf override) (subKeyOf override). intros v sk.
    unfold allOverrideKeys in Hin. rewrite !elem_of_cons in Hin.
    repeat (destruct Hin as [-> | Hin]); [..|by apply elem_of_nil in Hin];
      switch_on_key; unfold cbind.
    all: repeat match goal with
         | |- context [match ?x with _ => _ end] =>
             let T := type of x in
             lazymatch T with
             | completion _ => destruct x eqn:?
             | option string => destruct x as [[|? ?]|]
             | bool => destruct x
             end; cbn [cbind]
         end.
    all: try discriminate.
    all: try (intros [= <-]; eauto; fail).
    all: intros (o & _ & ->)%setSub_Return; eauto. }
  destruct Hwritten as [w ->]. split.
  - rewrite lookup_insert_eq. eauto.
  - intros k Hk. by rewrite lookup_insert_ne.
Qed.

Lemma reduce_frame overrides acc acc' :
  reduce overrides acc = Return acc' →
  (∀ o, o ∈ overrides → keyOf o ∈ allOverrideKeys ∧ is_Some (acc' !! keyOf o))
  ∧ (∀ k, is_Some (acc !! k) → is_Some (acc' !! k))
  ∧ ∀ k, (∀ o, o ∈ overrides → keyOf o ≠ k) → acc' !! k = acc !! k.
Proof.
  revert acc. induction overrides as [|o overrides IH]; intros acc; simpl.
  - intros [= <-]. split; [|done]. intros o Ho. by apply elem_of_nil in Ho.
  - destruct (step acc o) as [acc1|] eqn:Hstep; simpl; [|done].
    intros Hrest. destruct (IH _ Hrest) as (IH1 & IH2 & IH3).
    destruct (parseOverride_frame _ _ _ Hstep) as (Hin & Hsome & Hother).
    split; [|split].
    + intros o' [->|Ho']%elem_of_cons; [|by apply IH1]. split; [done|by apply IH2].
    + intros k Hk. apply IH2. destruct (decide (k = keyOf o)) as [->|Hne]; [done|].
      by rewrite Hother.
    + intros k Hk. rewrite IH3 by (intros o' Ho'; apply Hk; set_solver).
      apply Hother. intros ->. by apply (Hk o); [set_solver|].
Qed.

(** X1.  The object the resolver returns has exactly the top-level keys of
    the overrides it was given, and each of them is a key of the allow-list. *)
Theorem resolver_writes_the_keys_given overrides acc :
  resolve (Some overrides) = Return acc →
  ∀ k, is_Some (acc !! k) ↔ k ∈ allOverrideKeys ∧ ∃ o, o ∈ overrides ∧ keyOf o = k.
Proof.
  simpl. intros Hred k. destruct (reduce_frame _ _ _ Hred) as (H1 & _ & H3).
  split.
  - intros Hk.
    destruct (decide (Exists (fun o => keyOf o = k) overrides)) as [Hex|Hno].
    + apply Exists_exists in Hex as (o & Ho & <-). split; [by apply H1|eauto].
    + rewrite H3, lookup_empty in Hk; [by destruct Hk|].
      intros o Ho Heq. apply Hno, Exists_exists. eauto.
  - intros (_ & o & Ho & <-). by apply H1.
Qed.

(** X2.  Resolving a list of overrides is resolving its first part, then the
    rest from the accumulator reached; a failure in the first part is the
    failure of the whole. *)
Theorem reduceOverrides_app l1 l2 acc :
  reduce (l1 ++ l2)%list acc = cbind (reduce l1 acc) (reduce l2).
Proof.
  revert acc. induction l1 as [|o l1 IH]; intros acc; simpl; [done|].
  destruct (step acc o); simpl; [apply IH|done].
Qed.

(** What an override of a scalar key writes does not depend on the
    accumulator. *)
Lemma scalar_step_uniform acc override acc' :
  keyOf override ∈ scalarKeys →
  step acc override = Return acc' →
  ∃ w, ∀ a, step a override = Return (<[keyOf override := w]> a).
Proof.
  intros Hin. unfold parseOverride.
  generalize (valueOf override) (subKeyOf override). intros v sk.
  unfold scalarKeys in Hin. rewrite !elem_of_cons in Hin.
  repeat (destruct Hin as [-> | Hin]); [..|by apply elem_of_nil in Hin];
    switch_on_key; unfold cbind.
  all: match goal with
       | |- context [match ?x with Return _ => _ | Throw _ => _ end] => destruct x
       end; [|discriminate].
  all: intros _; eauto.
Qed.

(** X3.  For a key holding a scalar or a list, the last override of the key
    wins: the value the resolver returns under the key is the one this
    override gives on its own. *)
Theorem later_override_wins before override after acc :
  resolve (Some (before ++ override :: after)%list) = Return acc →
  keyOf override ∈ scalarKeys →
  (∀ o, o ∈ after → keyOf o ≠ keyOf override) →
  ∃ alone, step ∅ override = Return alone
           ∧ acc !! keyOf override = alone !! keyOf override.
Proof.
  simpl. rewrite reduceOverrides_app. intros Hred Hscalar Hlast.
  destruct (reduce before ∅) as [a1|] eqn:Hbefore; simpl in Hred; [|done].
  destruct (step a1 override) as [a2|] eqn:Hstep; simpl in Hred; [|done].
  destruct (scalar_step_uniform _ _ _ Hscalar Hstep) as [w Hw].
  exists (<[keyOf override := w]> ∅). split; [apply Hw|].
  destruct (reduce_frame _ _ _ Hred) as (_ & _ & Hframe).
  rewrite Hframe by done. rewrite Hw in Hstep. injection Hstep as <-.
  by rewrite !lookup_insert_eq.
Qed.


(** X5.  A structured key with a wrong or missing sub-key is refused,
    whatever the value and the accumulator: [retry] and [basicAuth] take their
    two sub-keys only, [headers] and [variables] need a sub-key, [cookies]
    takes [append] or none. *)
Theorem unknown_sub_key_is_refused acc override :
  let key := keyOf override in
  let subKey := subKeyOf override in
  (key = "retry" → subKey ≠ Some "count" → subKey ≠ Some "interval" →
   step acc override = Throw (JsError "Invalid subkey for retry"))
  ∧ (key = "basicAuth" → subKey ≠ Some "username" → subKey ≠ Some "password" →
     step acc override = Throw (JsError "Invalid subkey for basicAuth"))
  ∧ (key = "headers" ∨ key = "variables" → subKey = None ∨ subKey = Some "" →
     step acc override = Throw (JsError ("No subkey found for " +:+ key)))
  ∧ (∀ sk, key = "cookies" → subKey = Some sk → sk ≠ "" → sk ≠ "append" →
     step acc override
     = Throw (JsError ("The path " +:+ dquote +:+ "cookies." +:+ sk +:+ dquote
                       +:+ " is invalid. Did you mean `--override cookies=...`?"))).
Proof.
  intros key subKey. subst key subKey. unfold parseOverride.
  generalize (valueOf override) (subKeyOf override). intros v sk.
  split; [|split; [|split]].
  - intros -> H1 H2. switch_on_key. destruct sk as [sk|]; [|done].
    unfold isOneOf. simpl.
    destruct (String.eqb_spec sk "count") as [->|_]; [done|].
    by destruct (String.eqb_spec sk "interval") as [->|_].
  - intros -> H1 H2. switch_on_key. destruct sk as [sk|]; [|done].
    unfold isOneOf. simpl.
    destruct (String.eqb_spec sk "username") as [->|_]; [done|].
    by destruct (String.eqb_spec sk "password") as [->|_].
  - intros [-> | ->] [-> | ->]; by switch_on_key.
  - intros sk' -> -> Hne Happ. switch_on_key.
    destruct sk' as [|c sk']; [done|]. cbv beta iota.
    apply String.eqb_neq in Happ. rewrite Happ. reflexivity.
Qed.

(** X6.  A value that cannot be coerced to its type is refused with a message
    that names the type and quotes the value; values of type string and list
    of strings are never refused.  For a number the empty and the blank value
    are refused before they are read as a number. *)
Theorem coercion_failures_name_the_value v :
  (∀ type e,
     coerce v type = Throw e →
     ∃ name, (type, name) ∈ [(TBoolean, "boolean"); (TNumber, "number");
                             (TExecutionRule, "ExecutionRule")]
             ∧ e = JsError ("Invalid " +:+ name +:+ " value: " +:+ v))
  ∧ (JS.trim v = "" → coerce v TNumber = Throw (JsError ("Invalid number value: " +:+ v)))
  ∧ (JS.trim v ≠ "" →
     coerce v TNumber
     = if isNaN (Number v) then Throw (JsError ("Invalid number value: " +:+ v))
       else Return (VNumber (Number v))).
Proof.
  split; [|split].
  - intros type e. destruct type; unfold parseOverrideValue.
    + destruct (toBoolean (Some v)); [done|]. intros [= <-].
      exists "boolean". split; [set_solver|done].
    + destruct (toNumber Number isNaN (Some v)); [done|]. intros [= <-].
      exists "number". split; [set_solver|done].
    + done.
    + done.
    + destruct (toExecutionRule executionRuleValues (Some v)); [done|]. intros [= <-].
      exists "ExecutionRule". split; [set_solver|done].
  - intros Hblank. unfold parseOverrideValue, toNumber. by rewrite Hblank.
  - intros Hblank. unfold parseOverrideValue, toNumber.
    apply String.eqb_neq in Hblank. rewrite Hblank.
    by destruct (isNaN (Number v)).
Qed.


End ResolverMore.

(** X8.  An override is cut at its first [=]: the value is everything after it
    and may hold further [=]; the key is what precedes the first dot of the
    part before, the sub-key what stands between the first and the second dot.
    The cut fails exactly when the override has no [=] or holds a line
    terminator. *)
Theorem override_is_cut_at_first_equals :
  (∀ rawKey v,
     contains "=" rawKey = false → JS.allDot rawKey = true → JS.allDot v = true →
     rawKeyOf (rawKey +:+ "=" +:+ v) = rawKey ∧ valueOf (rawKey +:+ "=" +:+ v) = v)
  ∧ (∀ key subKey rest v,
       contains "." key = false → contains "." subKey = false →
       contains "=" (key +:+ "." +:+ subKey +:+ rest) = false →
       JS.allDot (key +:+ "." +:+ subKey +:+ rest) = true → JS.allDot v = true →
       rest = "" ∨ (∃ rest', rest = String "." rest') →
       keyOf (key +:+ "." +:+ subKey +:+ rest +:+ "=" +:+ v) = key
       ∧ subKeyOf (key +:+ "." +:+ subKey +:+ rest +:+ "=" +:+ v) = Some subKey)
  ∧ (∀ override,
       matchOverride override = None
       ↔ contains "=" override = false ∨ JS.allDot override = false).
Proof.
  split; [|split].
  - intros rawKey v Hk Hdk Hdv. unfold rawKeyOf, valueOf.
    by rewrite matchOverride_key_value.
  - intros key subKey rest v Hkey Hsub Heq Hdot Hv Hrest.
    set (raw := key +:+ "." +:+ subKey +:+ rest) in *.
    assert (Hm : matchOverride (raw +:+ "=" +:+ v) = Some (raw, v))
      by (by apply matchOverride_key_value).
    assert (Hassoc : key +:+ "." +:+ subKey +:+ rest +:+ "=" +:+ v = raw +:+ "=" +:+ v)
      by (subst raw; by rewrite !append_assoc).
    rewrite Hassoc. unfold keyOf, subKeyOf, rawKeyOf. rewrite Hm. subst raw.
    change (key +:+ "." +:+ subKey +:+ rest) with (key +:+ String "." (subKey +:+ rest)).
    rewrite split_cons by done.
    destruct Hrest as [-> | [rest' ->]].
    + rewrite append_empty, split_whole by done. done.
    + rewrite split_cons by done. done.
  - intros override. split.
    + intros Hnone.
      destruct (contains "=" override) eqn:Heq; [|by left]. right.
      destruct (JS.allDot override) eqn:Hdot; [|done].
      apply first_equals in Heq as (k & v & -> & Hk).
      rewrite !allDot_app in Hdot.
      apply andb_prop in Hdot as [Hdk [_ Hdv]%andb_prop].
      by rewrite matchOverride_key_value in Hnone.
    + intros Hor. destruct (matchOverride override) as [[k v]|] eqn:Hm; [|done].
      apply matchOverride_Some in Hm as (-> & Hk & Hdk & Hdv).
      destruct Hor as [Hno|Hdot].
      * assert (Hc : ∀ a b, contains "=" (a +:+ "=" +:+ b) = true).
        { clear. intros a b. induction a as [|c a IH]; simpl in *; [done|].
          rewrite IH. apply orb_true_r. }
        pose proof (eq_trans (eq_sym (Hc k v)) Hno) as X. discriminate X.
      * rewrite !allDot_app, Hdk, Hdv in Hdot. done.
Qed.

Section ResolverMoreExamples.

Abbreviation resolveZ :=
  (validateAndParseOverrides (number := Z) (fun _ => 0%Z) (fun _ => false) ["blocking"]).
Abbreviation stepZ :=
  (parseOverride (number := Z) (fun _ => 0%Z) (fun _ => false) ["blocking"]).

Lemma resolver_writes_the_keys_given_witness :
  ∃ acc,
    resolveZ (Some ["followRedirects=true"; "headers.X-Trace=1"]) = Return acc
    ∧ is_Some (acc !! "headers") ∧ acc !! "body" = None.
Proof.
  destruct (resolveZ (Some ["followRedirects=true"; "headers.X-Trace=1"]))
    as [acc|] eqn:Hres; [|by vm_compute in Hres].
  exists acc. split; [done|].
  pose proof (resolver_writes_the_keys_given (fun _ => 0%Z) (fun _ => false) ["blocking"]
                _ _ Hres) as Hkeys.
  split.
  - apply Hkeys. split; [unfold allOverrideKeys; set_solver|].
    exists "headers.X-Trace=1". split; [set_solver|reflexivity].
  - apply eq_None_not_Some. intros (_ & o & Ho & Hk)%Hkeys.
    rewrite !elem_of_cons in Ho. destruct Ho as [->|[->|Ho]]; [..|by apply elem_of_nil in Ho];
      vm_compute in Hk; discriminate.
Defined.

Lemma later_override_wins_witness :
  ∃ acc,
    resolveZ (Some ["startUrl=https://a.example"; "startUrl= https://b.example "])
    = Return acc
    ∧ acc !! "startUrl" = Some (VString "https://b.example").
Proof.
  destruct (resolveZ (Some ["startUrl=https://a.example"; "startUrl= https://b.example "]))
    as [acc|] eqn:Hres; [|by vm_compute in Hres].
  exists acc. split; [done|].
  destruct (later_override_wins (fun _ => 0%Z) (fun _ => false) ["blocking"]
              ["startUrl=https://a.example"] "startUrl= https://b.example " [] acc Hres)
    as (alone & Halone & Hacc).
  - vm_compute. set_solver.
  - intros o Ho. by apply elem_of_nil in Ho.
  - change (keyOf "startUrl= https://b.example ") with "startUrl" in Hacc.
    rewrite Hacc. vm_compute in Halone. injection Halone as <-. reflexivity.
Defined.


Lemma unknown_sub_key_is_refused_witness :
  stepZ ∅ "retry.delay=5" = Throw (JsError "Invalid subkey for retry")
  ∧ stepZ ∅ "headers=x" = Throw (JsError "No subkey found for headers").
Proof.
  pose proof (unknown_sub_key_is_refused (fun _ => 0%Z) (fun _ => false) ["blocking"]
                ∅ "retry.delay=5") as (Hretry & _).
  pose proof (unknown_sub_key_is_refused (fun _ => 0%Z) (fun _ => false) ["blocking"]
                ∅ "headers=x") as (_ & _ & Hheaders & _).
  split.
  - apply Hretry; [reflexivity|vm_compute; discriminate|vm_compute; discriminate].
  - apply Hheaders; [by left|by left].
Defined.

Lemma coercion_failures_name_the_value_witness :
  JS.trim "  " = ""
  ∧ parseOverrideValue (number := Z) (fun _ => 0%Z) (fun _ => false) ["blocking"] "  " TNumber
    = Throw (JsError "Invalid number value:   ").
Proof.
  split; [reflexivity|].
  exact (proj1 (proj2 (coercion_failures_name_the_value (fun _ => 0%Z) (fun _ => false)
                         ["blocking"] "  ")) eq_refl).
Defined.

Lemma override_is_cut_at_first_equals_witness :
  rawKeyOf "startUrl=https://example.org/?a=b" = "startUrl"
  ∧ valueOf "startUrl=https://example.org/?a=b" = "https://example.org/?a=b"
  ∧ keyOf "headers.X-Trace.id=1" = "headers"
  ∧ subKeyOf "headers.X-Trace.id=1" = Some "X-Trace".
Proof.
  destruct override_is_cut_at_first_equals as (Hraw & Hdotted & _).
  destruct (Hraw "startUrl" "https://example.org/?a=b" eq_refl eq_refl eq_refl) as [H1 H2].
  destruct (Hdotted "headers" "X-Trace" ".id" "1" eq_refl eq_refl eq_refl eq_refl eq_refl
              (or_intror (ex_intro _ "id" eq_refl))) as [H3 H4].
  split; [exact H1|]. split; [exact H2|]. split; [exact H3|exact H4].
Defined.

End ResolverMoreExamples.

(** ** The trigger-config builder, continued *)

Section BuilderMore.
Import RunTestsLib.

(** The entry at position [i] has, among the entries on which [P] holds, the
    rank given by the number of such entries before it. *)
Lemma filter_lookup_rank {A} (P : A → Prop) `{∀ x, Decision (P x)} (l : list A) i t :
  l !! i = Some t → P t → filter P l !! length (filter P (take i l)) = Some t.
Proof.
  revert i. induction l as [|a l IH]; intros i Hi HP; [done|].
  destruct i as [|i]; simpl in Hi.
  - injection Hi as ->. by rewrite (filter_cons_True P t l HP).
  - cbn [take]. destruct (decide (P a)) as [Ha|Ha].
    + rewrite !(filter_cons_True P a _ Ha). simpl. by apply IH.
    + rewrite !(filter_cons_False P a _ Ha). by apply IH.
Qed.

Lemma occurrences_map_id (l : list TriggerConfig) x :
  length (filter (fun y : string => y = x) (map cfg_id l))
  = length (filter (fun t => cfg_id t = x) l).
Proof.
  induction l as [|t l IH]; [done|]. cbn [map].
  destruct (decide (cfg_id t = x)) as [Heq|Hne].
  - rewrite (filter_cons_True (fun y : string => y = x) (cfg_id t) _ Heq).
    rewrite (filter_cons_True (fun t => cfg_id t = x) t l Heq). simpl. by rewrite IH.
  - rewrite (filter_cons_False (fun y : string => y = x) (cfg_id t) _ Hne).
    by rewrite (filter_cons_False (fun t => cfg_id t = x) t l Hne).
Qed.

(** X9.  When the ids come from the test-config files (no id on the command
    line, no test from the search query), each entry of the files gives one
    trigger config, in order, even if an id is repeated: the [i]-th config is
    made of the [i]-th entry and of nothing else. *)
Theorem test_config_entries_map_one_to_one config testsFromTestConfigs :
  publicIds config = [] →
  triggerConfigsFrom config testsFromTestConfigs []
  = map (configOfEntry (defaultTestOverrides config)) testsFromTestConfigs.
Proof.
  intros Hcli. apply list_eq. intros i.
  unfold triggerConfigsFrom. rewrite Hcli. cbn [map].
  assert (Hids : testIdsToTrigger [] [] (map cfg_id testsFromTestConfigs)
                 = map cfg_id testsFromTestConfigs).
  { unfold testIdsToTrigger. simpl. by destruct testsFromTestConfigs. }
  rewrite Hids, list_lookup_fmap.
  destruct (testsFromTestConfigs !! i) as [t|] eqn:Hi.
  - rewrite (mapIds_lookup _ _ _ _ i (cfg_id t)) by (by rewrite list_lookup_fmap, Hi).
    rewrite <- fmap_take, occurrences_map_id.
    rewrite (filter_lookup_rank (fun t' => cfg_id t' = cfg_id t) _ i t Hi eq_refl).
    simpl. unfold makeTriggerConfig, configOfEntry. simpl. f_equal. f_equal.
    unfold spread. simpl. by rewrite (right_id_L ∅ (∪)).
  - simpl. apply lookup_ge_None_2.
    rewrite <- (length_map cfg_id), mapIds_ids, length_map.
    by apply lookup_ge_None_1.
Qed.

(** X10.  The properties a trigger config inherits come from the entries
    matched to its id in both sources; on a property both entries have, the
    test-config entry wins over the search-query entry. *)
Theorem test_config_properties_win config testsFromTestConfigs testsFromSearchQuery i x :
  let ids := testIdsToTrigger (publicIds config) (map cfg_id testsFromSearchQuery)
               (map cfg_id testsFromTestConfigs) in
  ids !! i = Some x →
  let n := length (filter (fun y : string => y = x) (take i ids)) in
  let fromTestConfigs := filter (fun t => cfg_id t = x) testsFromTestConfigs !! n in
  let fromSearchQuery := filter (fun t => cfg_id t = x) testsFromSearchQuery !! n in
  ∃ t,
    triggerConfigsFrom config testsFromTestConfigs testsFromSearchQuery !! i = Some t
    ∧ ∀ key, cfg_props t !! key
             = perTestWins (spread (cfg_props <$> fromSearchQuery))
                 (spread (cfg_props <$> fromTestConfigs)) key.
Proof.
  intros ids Hi n fromTestConfigs fromSearchQuery.
  unfold triggerConfigsFrom. fold ids.
  rewrite (mapIds_lookup _ _ _ _ _ _ Hi). eexists. split; [reflexivity|].
  intros key. apply lookup_union_perTestWins.
Qed.

Lemma test_config_properties_win_witness :
  let fromFile := {| cfg_id := "aaa"; cfg_props := {[ "suite" := "checkout.synthetics.json" ]};
                     testOverrides := None |} in
  let fromSearch := {| cfg_id := "aaa"; cfg_props := {[ "suite" := "Query: tag:e2e" ]};
                       testOverrides := None |} in
  ∃ t,
    triggerConfigsFrom Scenarios.baseConfig [fromFile] [fromSearch] !! 0%nat = Some t
    ∧ cfg_props t !! "suite" = Some "checkout.synthetics.json".
Proof.
  intros fromFile fromSearch.
  destruct (test_config_properties_win Scenarios.baseConfig [fromFile] [fromSearch] 0 "aaa"
              eq_refl) as (t & Ht & Hprops).
  exists t. split; [exact Ht|]. rewrite Hprops. reflexivity.
Defined.

Lemma test_config_entries_map_one_to_one_witness :
  publicIds Scenarios.baseConfig = []
  ∧ triggerConfigsFrom Scenarios.baseConfig
      [Scenarios.withPollingTimeout "aaa" 60; Scenarios.withPollingTimeout "aaa" 120] []
    = map (configOfEntry None)
        [Scenarios.withPollingTimeout "aaa" 60; Scenarios.withPollingTimeout "aaa" 120].
Proof.
  split; [reflexivity|].
  exact (test_config_entries_map_one_to_one Scenarios.baseConfig
           [Scenarios.withPollingTimeout "aaa" 60; Scenarios.withPollingTimeout "aaa" 120]
           eq_refl).
Defined.

End BuilderMore.

(** ** The run orchestrator, continued *)


(** The answer recorded for a call that returned contradicts [H], which says
    that it threw. *)
Ltac returned_not_thrown H :=
  match goal with
  | H' : ?c = Return ?a |- _ =>
      let X := fresh "X" in
      pose proof (eq_trans (eq_sym (f_equal RunTestsLib.thrown H')) H : None = Some _) as X;
      discriminate X
  end.

Section RunMore.
Import RunTestsLib.

Variable DEFAULT_BATCH_TIMEOUT : Z.
Variable isForbiddenError : error → bool.
Variable instanceofCiError : error → bool.
Variable replaceGlobalWithDefaultTestOverrides : RunTestsCommandConfig → RunTestsCommandConfig.
Variable moveLocationsToTestOverrides : RunTestsCommandConfig → RunTestsCommandConfig.
Variable replacePollingTimeoutWithBatchTimeout : RunTestsCommandConfig → option Z.

Abbreviation normalized :=
  (normalize replaceGlobalWithDefaultTestOverrides moveLocationsToTestOverrides
     replacePollingTimeoutWithBatchTimeout).
Abbreviation execute :=
  (executeTests DEFAULT_BATCH_TIMEOUT isForbiddenError instanceofCiError
     replaceGlobalWithDefaultTestOverrides moveLocationsToTestOverrides
     replacePollingTimeoutWithBatchTimeout).



(** X13.  A call that throws ends the run: nothing is called after it but the
    stop of the tunnel. *)
Theorem nothing_follows_a_failed_call api config s r ev e :
  execute api config initial = (s, r) →
  ev ∈ trace s →
  thrownBy api (normalized config) ev = Some e →
  ∃ before, trace s = (before ++ [ev])%list
            ∨ ∃ t, trace s = (before ++ [ev; EvTunnelStop t])%list.
Proof.
  intros Hrun Hev Hthrown.
  revert Hrun Hev; run_paths; intros [= <- <-]; cbn [trace]; intros Hev;
    trace_cases Hev; unfold thrownBy in Hthrown.
  all: try discriminate Hthrown.
  all: try returned_not_thrown Hthrown.
  all: first
    [ by (exists []; left)
    | by (eexists [_]; left)
    | by (eexists [_; _]; left)
    | by (eexists [_; _; _]; left)
    | by (eexists [_; _; _; _]; left)
    | by (eexists [_; _; _; _; _]; left)
    | by (eexists [_; _; _; _; _; _]; left)
    | by (eexists [_; _; _; _; _; _; _]; left)
    | by (eexists [_; _; _]; right; eexists)
    | by (eexists [_; _; _; _]; right; eexists)
    | by (eexists [_; _; _; _; _]; right; eexists)
    | by (eexists [_; _; _; _; _; _]; right; eexists)
    | by (eexists [_; _; _; _; _; _; _]; right; eexists) ].
Qed.

(** X14.  A run that returns has seen every call return; it hands back the
    results of the poll, the initial summary of the test lookup and the id of
    the batch the trigger submission opened. *)
Theorem a_run_returns_what_the_poll_returns api config s out :
  execute api config initial = (s, Return out) →
  (∀ ev, ev ∈ trace s → thrownBy api (normalized config) ev = None)
  ∧ ∃ tcs fromSearch failOnMissing tun tt payloads selective timeout trigger options tunnel,
      getTestsToTrigger api tcs fromSearch failOnMissing tun = Return tt
      ∧ runTests api payloads selective timeout = Return trigger
      ∧ EvWaitForResults trigger (tests tt) options tunnel ∈ trace s
      ∧ waitForResults api trigger (tests tt) options tunnel = Return (results out)
      ∧ summary out = {| initialSummary := tt_initialSummary tt;
                         batchId := batch_id trigger |}.
Proof.
  intros Hrun. split.
  - intros ev Hev. revert Hrun Hev; run_paths;
      (intros [= <- <-] || (intros H; discriminate H)); cbn [trace]; intros Hev;
      trace_cases Hev; unfold thrownBy; try reflexivity.
    all: match goal with
         | H : ?c = Return ?a |- thrown _ = None => exact (f_equal thrown H)
         end.
  - revert Hrun; run_paths;
      (intros [= <- <-] || (intros H; discriminate H)); cbn [trace results summary].
    all: eexists _, _, _, _, _, _, _, _, _, _, _.
    all: split; [eassumption|]; split; [eassumption|]; split; [in_trace|].
    all: split; [eassumption|reflexivity].
Qed.

(** [H] says that the configuration asks for no tunnel, a recorded test says
    that it does. *)
Ltac tunnel_is_off H :=
  match goal with
  | H' : _ = true |- _ =>
      let X := fresh "X" in
      pose proof (eq_trans (eq_sym H) H' : false = true) as X; discriminate X
  end.

(** X15.  Without the tunnel option a run makes no tunnel call at all and
    submits the test payloads as the lookup gave them.  With it, the payloads
    submitted are those of the lookup, in order, each carrying the connection
    info that the start of the tunnel returned, and the tunnel was opened for
    the public ids of the tests. *)
Theorem payloads_carry_the_tunnel api config s r :
  execute api config initial = (s, r) →
  (tunnel (normalized config) = false → existsb isTunnelCall (trace s) = false)
  ∧ ∀ payloads selective timeout,
      EvRunTests payloads selective timeout ∈ trace s →
      ∃ tcs fromSearch failOnMissing tun tt,
        EvGetTestsToTrigger tcs fromSearch failOnMissing tun ∈ trace s
        ∧ getTestsToTrigger api tcs fromSearch failOnMissing tun = Return tt
        ∧ (tunnel (normalized config) = false → payloads = overriddenTestsToTrigger tt)
        ∧ (tunnel (normalized config) = true →
           ∃ t info,
             EvTunnelStart t ∈ trace s
             ∧ tunnelStart api t = Return info
             ∧ tunnel_ids t = map public_id (tests tt)
             ∧ payloads = map (withTunnel info) (overriddenTestsToTrigger tt)).
Proof.
  intros Hrun. split.
  - intros Hoff. revert Hrun; run_paths; intros [= <- <-]; cbn [trace];
      first [reflexivity | discriminate Hoff | tunnel_is_off Hoff].
  - intros payloads selective timeout Hev.
    revert Hrun Hev; run_paths; intros [= <- <-]; cbn [trace]; intros Hev;
      trace_cases Hev.
    all: eexists _, _, _, _, _.
    all: split; [in_trace|]; split; [eassumption|].
    all: split; [intros Hoff; first [reflexivity | discriminate Hoff | tunnel_is_off Hoff]|].
    all: intros Hon; try (exfalso; clear -Hon; discriminate Hon).
    all: eexists _, _; split; [in_trace|]; split; [eassumption|].
    all: split; reflexivity.
Qed.

End RunMore.

(** X16.  The poll deadline does not depend on the order of the trigger
    configs, and one more trigger config never lowers it. *)
Theorem deadline_is_order_independent DEFAULT_BATCH_TIMEOUT config triggerConfigs :
  (∀ triggerConfigs',
     triggerConfigs ≡ₚ triggerConfigs' →
     RunTestsLib.maxPollingTimeout DEFAULT_BATCH_TIMEOUT config triggerConfigs
     = RunTestsLib.maxPollingTimeout DEFAULT_BATCH_TIMEOUT config triggerConfigs')
  ∧ ∀ t d,
      RunTestsLib.maxPollingTimeout DEFAULT_BATCH_TIMEOUT config triggerConfigs
      = RunTestsLib.Num d →
      ∃ d', RunTestsLib.maxPollingTimeout DEFAULT_BATCH_TIMEOUT config (t :: triggerConfigs)
            = RunTestsLib.Num d' ∧ (d ≤ d')%Z.
Proof.
  assert (Hperm : ∀ xs ys, xs ≡ₚ ys → RunTestsLib.Math_max xs = RunTestsLib.Math_max ys).
  { intros xs ys Hp. destruct xs as [|x xs].
    - by apply Permutation_nil_l in Hp as ->.
    - assert (Hys : ys ≠ []) by (intros ->; by apply Permutation_nil_r in Hp).
      destruct (Math_max_spec (x :: xs)) as (d1 & -> & Hin1 & Hall1); [done|].
      destruct (Math_max_spec ys Hys) as (d2 & -> & Hin2 & Hall2).
      assert (d1 ≤ d2)%Z by (apply Hall2; by rewrite <- Hp).
      assert (d2 ≤ d1)%Z by (apply Hall1; by rewrite Hp).
      f_equal. lia. }
  split.
  - intros tcs' Hp. unfold RunTestsLib.maxPollingTimeout. apply Hperm.
    by apply fmap_Permutation.
  - intros t d Hd. unfold RunTestsLib.maxPollingTimeout in *.
    set (f := fun t => RunTestsLib.orElse _ _) in *.
    destruct (Math_max_spec (map f (t :: triggerConfigs))) as (d' & Hd' & Hin' & Hall');
      [done|].
    exists d'. split; [done|].
    destruct triggerConfigs as [|t0 tcs]; [done|].
    destruct (Math_max_spec (map f (t0 :: tcs))) as (d0 & Hd0 & Hin0 & _); [done|].
    rewrite Hd0 in Hd. injection Hd as <-. apply Hall'. simpl. set_solver.
Qed.

Section RunMoreExamples.
Import RunTestsLib Scenarios.

Abbreviation runGiven api config :=
  (executeTests 1800 isForbidden403 isCiError (fun c => c) (fun c => c) keepBatchTimeout
     api config initial).



Lemma nothing_follows_a_failed_call_witness :
  let api := collaborators (Throw forbidden) (Return []) in
  let ev := EvRunTests tunnelledPayloads None None in
  ev ∈ trace (run api baseConfig).1
  ∧ thrownBy api baseConfig ev = Some forbidden
  ∧ ∃ before, trace (run api baseConfig).1 = (before ++ [ev; EvTunnelStop theTunnel])%list.
Proof.
  intros api ev.
  assert (Hev : ev ∈ trace (run api baseConfig).1) by (vm_compute; in_trace).
  assert (Hthrown : thrownBy api baseConfig ev = Some forbidden) by reflexivity.
  split; [exact Hev|]. split; [exact Hthrown|].
  destruct (nothing_follows_a_failed_call 1800 isForbidden403 isCiError (fun c => c)
              (fun c => c) keepBatchTimeout api baseConfig _ _ ev forbidden
              (run_eq api baseConfig) Hev Hthrown) as [before [H|[t H]]].
  - exfalso. apply (f_equal (fun l => List.last l EvGetTestConfigs)) in H.
    rewrite last_last in H. vm_compute in H. discriminate H.
  - exists before. rewrite H. do 3 f_equal.
    apply (f_equal (fun l => List.last l EvGetTestConfigs)) in H.
    change (before ++ [ev; EvTunnelStop t])%list
      with (before ++ [ev] ++ [EvTunnelStop t])%list in H.
    rewrite app_assoc, last_last in H. vm_compute in H. by injection H as <-.
Defined.

Lemma a_run_returns_what_the_poll_returns_witness :
  let polled := [ {| result_id := "r1"; passed := true |} ] in
  let api := collaborators (Return (batch false)) (Return polled) in
  ∃ s out,
    runGiven api baseConfig = (s, Return out)
    ∧ results out = polled ∧ batchId (summary out) = "batch-1".
Proof.
  intros polled api.
  destruct (run api baseConfig).2 as [out|] eqn:Hout; [|by vm_compute in Hout].
  assert (Hrun : runGiven api baseConfig = ((run api baseConfig).1, Return out))
    by (rewrite run_eq, Hout; reflexivity).
  exists (run api baseConfig).1, out. split; [exact Hrun|].
  destruct (a_run_returns_what_the_poll_returns 1800 isForbidden403 isCiError (fun c => c)
              (fun c => c) keepBatchTimeout api baseConfig _ _ Hrun)
    as (_ & tcs & b1 & b2 & b3 & tt & payloads & sel & bt & trigger & options & tun
        & Hlookup & Htrigger & _ & Hpoll & Hsummary).
  split.
  - by injection Hpoll as <-.
  - rewrite Hsummary. simpl. by injection Htrigger as <-.
Defined.

Lemma payloads_carry_the_tunnel_witness :
  let api := collaborators (Return (batch false)) (Return []) in
  EvRunTests tunnelledPayloads None None ∈ trace (run api baseConfig).1
  ∧ ∃ t info,
      EvTunnelStart t ∈ trace (run api baseConfig).1
      ∧ tunnelStart api t = Return info
      ∧ tunnelledPayloads = map (withTunnel info) (overriddenTestsToTrigger twoTests).
Proof.
  intros api.
  assert (Hev : EvRunTests tunnelledPayloads None None ∈ trace (run api baseConfig).1)
    by (vm_compute; in_trace).
  split; [exact Hev|].
  destruct (proj2 (payloads_carry_the_tunnel 1800 isForbidden403 isCiError (fun c => c)
                     (fun c => c) keepBatchTimeout api baseConfig _ _
                     (run_eq api baseConfig)) _ _ _ Hev)
    as (tcs & b1 & b2 & b3 & tt & _ & Hlookup & _ & Hon).
  destruct (Hon eq_refl) as (t & info & Hstart & Hinfo & _ & Hpayloads).
  exists t, info. split; [exact Hstart|]. split; [exact Hinfo|].
  rewrite Hpayloads. by injection Hlookup as <-.
Defined.

End RunMoreExamples.

(** ** The environment of the CI provider *)

Section CIFacts.
Import CI.

Lemma startsWith_spec prefix s : startsWith prefix s = true ↔ ∃ rest, s = prefix +:+ rest.
Proof.
  revert s. induction prefix as [|a prefix IH]; intros s; simpl.
  - split; [eauto|done].
  - destruct s as [|b s].
    + split; [done|]. by intros [rest H].
    + rewrite andb_true_iff, Ascii.eqb_eq, IH. split.
      * intros [-> [rest ->]]. eauto.
      * intros [rest [= -> ->]]. eauto.
Qed.

(** Under the flag [i] a character matches a letter of the pattern exactly
    when it is that letter, in either case; checked on every pair. *)
Lemma canonicalize_letter c d :
  ((97 <=? JS.code d) && (JS.code d <=? 122))%nat = true →
  (canonicalize c =? canonicalize (upperChar d))%nat
  = Ascii.eqb c d || Ascii.eqb c (upperChar d).
Proof.
  assert (Hall : forallb (fun c => forallb (fun d =>
            implb ((97 <=? JS.code d) && (JS.code d <=? 122))%nat
              (Bool.eqb (canonicalize c =? canonicalize (upperChar d))%nat
                 (Ascii.eqb c d || Ascii.eqb c (upperChar d)))) allAscii) allAscii = true)
    by (vm_compute; reflexivity).
  intros Hd. rewrite forallb_forall in Hall.
  specialize (Hall c (allAscii_complete c)). rewrite forallb_forall in Hall.
  specialize (Hall d (allAscii_complete d)). rewrite Hd in Hall. simpl in Hall.
  by apply Bool.eqb_prop.
Qed.

Lemma lower_not_upper d :
  ((97 <=? JS.code d) && (JS.code d <=? 122))%nat = true → Ascii.eqb (upperChar d) d = false.
Proof.
  assert (Hall : forallb (fun d =>
            implb ((97 <=? JS.code d) && (JS.code d <=? 122))%nat
              (negb (Ascii.eqb (upperChar d) d))) allAscii = true)
    by (vm_compute; reflexivity).
  intros Hd. rewrite forallb_forall in Hall.
  specialize (Hall d (allAscii_complete d)). rewrite Hd in Hall. simpl in Hall.
  by apply negb_true_iff.
Qed.

Lemma matchesAt_variants word s :
  allLower word = true →
  matchesAt (upperString word) s = true
  ↔ ∃ mid post, s = mid +:+ post ∧ mid ∈ caseVariants word.
Proof.
  revert s. induction word as [|d word IH]; intros s Hlow; simpl in *.
  - split; [|done]. intros _. exists "", s. split; [done|set_solver].
  - apply andb_prop in Hlow as [Hd Hlow].
    rewrite (lower_not_upper d Hd).
    destruct s as [|c s].
    + split; [done|]. intros (mid & post & Heq & Hin).
      apply elem_of_app in Hin as [Hin|Hin];
        apply list_elem_of_fmap in Hin as (m & -> & _); discriminate.
    + rewrite andb_true_iff, (canonicalize_letter c d Hd), orb_true_iff,
        !Ascii.eqb_eq, (IH s Hlow).
      split.
      * intros [Hc (mid & post & -> & Hin)]. exists (String c mid), post.
        split; [done|]. apply elem_of_app.
        destruct Hc as [-> | ->]; [left|right]; by apply list_elem_of_fmap_2.
      * intros (mid & post & Heq & Hin).
        apply elem_of_app in Hin as [Hin|Hin];
          apply list_elem_of_fmap in Hin as (m & -> & Hm);
          simpl in Heq; injection Heq as -> ->; split; eauto.
Qed.

Lemma test_spec words s :
  test words s = true
  ↔ ∃ pre rest word, s = pre +:+ rest ∧ word ∈ words ∧ matchesAt word rest = true.
Proof.
  induction s as [|c s IH]; simpl.
  - rewrite orb_false_r, existsb_exists. split.
    + intros (w & Hw & Hm). exists "", "", w. by rewrite <- list_elem_of_In in Hw.
    + intros (pre & rest & w & Heq & Hw & Hm).
      destruct pre; [|done]. simpl in Heq. subst rest.
      exists w. by rewrite <- list_elem_of_In.
  - rewrite orb_true_iff, existsb_exists, IH. split.
    + intros [(w & Hw & Hm)|(pre & rest & w & -> & Hw & Hm)].
      * exists "", (String c s), w. by rewrite <- list_elem_of_In in Hw.
      * exists (String c pre), rest, w. done.
    + intros (pre & rest & w & Heq & Hw & Hm). destruct pre as [|c' pre]; simpl in Heq.
      * subst rest. left. exists w. by rewrite <- list_elem_of_In.
      * injection Heq as -> ->. right. by exists pre, rest, w.
Qed.

(** A name is held back exactly when it mentions one of the four words. *)
Lemma sensitive_mentions name :
  test sensitiveWords name = true ↔ ∃ word, word ∈ secretWords ∧ mentions word name.
Proof.
  rewrite test_spec. unfold mentions. split.
  - intros (pre & rest & W & -> & HW & Hm).
    assert (HW' : ∃ w, w ∈ secretWords ∧ W = upperString w ∧ allLower w = true).
    { unfold sensitiveWords in HW. rewrite !elem_of_cons in HW.
      destruct HW as [->|[->|[->|[->|HW]]]]; [..|by apply elem_of_nil in HW].
      - exists "pass". split; [unfold secretWords; set_solver|done].
      - exists "token". split; [unfold secretWords; set_solver|done].
      - exists "secret". split; [unfold secretWords; set_solver|done].
      - exists "key". split; [unfold secretWords; set_solver|done]. }
    destruct HW' as (w & Hw & -> & Hlow).
    apply matchesAt_variants in Hm as (mid & post & -> & Hin); [|done].
    exists w. split; [done|]. by exists pre, mid, post.
  - intros (w & Hw & pre & mid & post & -> & Hin).
    exists pre, (mid +:+ post), (upperString w).
    split; [done|].
    assert (Hlow : allLower w = true ∧ upperString w ∈ sensitiveWords).
    { unfold secretWords in Hw. rewrite !elem_of_cons in Hw.
      destruct Hw as [->|[->|[->|[->|Hw]]]]; [..|by apply elem_of_nil in Hw];
        (split; [done|unfold sensitiveWords; simpl; set_solver]). }
    destruct Hlow as [Hlow Hup]. split; [done|].
    apply matchesAt_variants; [done|]. eauto.
Qed.

(** X17.  The variables handed over for a provider are exactly the variables
    of the environment whose name begins with the prefix and mentions none of
    [pass], [token], [secret], [key] in any case; their values are
    untouched. *)
Theorem getEnvVars_keeps_no_secret prefix env name v :
  getEnvVars prefix env !! name = Some v
  ↔ env !! name = Some v
    ∧ (∃ rest, name = prefix +:+ rest)
    ∧ ∀ word, word ∈ secretWords → ¬ mentions word name.
Proof.
  unfold getEnvVars. rewrite map_lookup_filter_Some. simpl.
  rewrite andb_true_iff, negb_true_iff, startsWith_spec.
  split.
  - intros (Hv & Hp & Hs). split; [done|]. split; [done|].
    intros w Hw Hm. apply not_true_iff_false in Hs. apply Hs.
    apply sensitive_mentions. eauto.
  - intros (Hv & Hp & Hs). split; [done|]. split; [done|].
    apply not_true_iff_false. intros (w & Hw & Hm)%sensitive_mentions.
    by apply (Hs w).
Qed.


Example getEnvVars_circleci :
  getEnvVars "CIRCLE_"
    (list_to_map [ ("CIRCLE_BRANCH", "main"); ("CIRCLE_TOKEN", "s3cr3t");
                   ("CIRCLE_MONKEY", "kept out: it spells KEY");
                   ("CIRCLE_Api_key", "k"); ("HOME", "/root") ])
  = {[ "CIRCLE_BRANCH" := "main" ]}.
Proof. vm_compute. reflexivity. Qed.




End CIFacts.

(** ** The upload command *)

Ltac upload_field f :=
  let c := fresh "c" in destruct f as [[|c f]|].

Ltac upload_paths cmd :=
  let ak := fresh "apiKey" in
  let pk := fresh "appKey" in
  let site := fresh "site" in
  let path := fresh "path" in
  let dry := fresh "dry" in
  let rv := fresh "version" in
  let sv := fresh "service" in
  let src := fresh "source" in
  destruct cmd as [ak pk site path dry rv sv src];
  unfold DependenciesUpload.execute, DependenciesUpload.uploadDependencies,
    validInputs, DependenciesUpload.missing, DependenciesUpload.SUPPORTED_SOURCES;
  cbn [DependenciesUpload.source DependenciesUpload.releaseVersion
       DependenciesUpload.service DependenciesUpload.appKey DependenciesUpload.apiKey
       DependenciesUpload.dryRun DependenciesUpload.dependenciesFilePath
       DependenciesUpload.datadogSite existsb from_option JS.truthy negb orb];
  upload_field src;
  [| match goal with
     | |- context [String.eqb ?s "snyk"] =>
         destruct (String.eqb_spec s "snyk") as [->|?]
     end |];
  cbn [negb orb andb];
  try (rewrite bool_decide_eq_true_2 by reflexivity);
  try (rewrite bool_decide_eq_false_2 by congruence);
  cbn [negb orb andb];
  try (upload_field rv; cbn [from_option JS.truthy negb andb];
       try (upload_field sv; cbn [from_option JS.truthy negb andb];
            try (upload_field pk; cbn [from_option JS.truthy negb andb];
                 try (upload_field ak; cbn [from_option JS.truthy negb andb])))).

Section UploadFacts.
Import DependenciesUpload.

Variable redBold greenBold : string → string.
Variable normalize : string → string.
Variable renderCommandInfo : string → string → string → bool → string.
Variable renderDryRunUpload renderUpload : string.
Variable renderFailedUpload : string → string.
Variable renderSuccessfulCommand : Z → string.
Variable existsSync : string → bool.
Variable upload : Payload → completion unit.
Variable initialTime endTime : Z.

Abbreviation run cmd :=
  (execute redBold greenBold normalize renderCommandInfo renderDryRunUpload renderUpload
     renderFailedUpload renderSuccessfulCommand existsSync upload initialTime endTime cmd).

(** X20.  The upload command exits with code 1 exactly when one of its
    inputs is missing or the source is not the supported one; it has then
    written one message to the error stream and called nothing: no file
    system, no metrics, no intake. *)
Theorem invalid_input_exits_before_any_call cmd :
  ((run cmd).2 = Some INVALID_INPUT_EXIT_CODE ↔ validInputs cmd = false)
  ∧ (validInputs cmd = false → ∃ text, (run cmd).1 = [Stderr text]).
Proof.
  upload_paths cmd;
    try (split; [split; [reflexivity|reflexivity]|intros _; eexists; reflexivity]).
  all: split; [|discriminate].
  all: split; [|discriminate].
  all: destruct (existsSync _); cbn [negb]; [|discriminate].
  all: destruct dry; [discriminate|].
  all: destruct (upload _); discriminate.
Qed.

(** X21.  With valid inputs the command exits with code 2 exactly when the
    normalized path names no file; it has then only looked for the file and
    written one message to the error stream. *)
Theorem missing_file_exits_with_code_2 cmd :
  validInputs cmd = true →
  let path := normalize (dependenciesFilePath cmd) in
  ((run cmd).2 = Some MISSING_FILE_EXIT_CODE ↔ existsSync path = false)
  ∧ (existsSync path = false → ∃ text, (run cmd).1 = [ExistsSync path; Stderr text]).
Proof.
  upload_paths cmd; try discriminate.
  intros _. cbn [dependenciesFilePath].
  destruct (existsSync _); cbn [negb].
  - split; [|discriminate]. split; [|discriminate].
    destruct dry; [discriminate|]. destruct (upload _); discriminate.
  - split; [done|]. intros _. eexists; reflexivity.
Qed.

(** X22.  A dry run never calls the intake and counts neither a success nor
    a failure; it cannot end with the upload error code. *)
Theorem dry_run_never_uploads cmd :
  dryRun cmd = true →
  List.filter isUpload (run cmd).1 = []
  ∧ List.filter isIncrement (run cmd).1 = []
  ∧ (run cmd).2 ≠ Some UPLOAD_ERROR_EXIT_CODE.
Proof.
  upload_paths cmd; intros ->; try (repeat split; done).
  destruct (existsSync _); cbn [negb]; repeat split; done.
Qed.

(** X23.  The metrics logger is created at most once, and only with valid
    inputs and an existing file; whenever it is created it is flushed exactly
    once, as the last thing the command does, whether the upload returned or
    threw. *)
Theorem metrics_are_flushed_once_at_the_end cmd :
  let t := (run cmd).1 in
  (List.filter isLogger t ≠ []
   ↔ validInputs cmd = true ∧ existsSync (normalize (dependenciesFilePath cmd)) = true)
  ∧ (length (List.filter isLogger t) ≤ 1)%nat
  ∧ length (List.filter isFlush t) = length (List.filter isLogger t)
  ∧ (List.filter isLogger t ≠ [] → last t = Some Flush).
Proof.
  upload_paths cmd;
    try (split; [split; [done|intros [? ?]; done]|repeat split; cbn; done || lia]).
  cbn [dependenciesFilePath].
  destruct (existsSync _); cbn [negb].
  - destruct dry; [|destruct (upload _)].
    all: split; [split; [done|done]|repeat split; cbn; done || lia].
  - split; [split; [done|intros [? ?]; done]|repeat split; cbn; done || lia].
Qed.

(** X24.  A real upload (valid inputs, existing file, no dry run) hands the
    intake the normalized path, the service and the version, once.  When the
    intake answers, one success is counted, the duration is gauged and the
    command returns no exit code; when it throws, one failure is counted, no
    duration is gauged, the message of the error goes to the error stream and
    the exit code is 3. *)
Theorem upload_outcome_is_counted cmd version service_ :
  validInputs cmd = true →
  existsSync (normalize (dependenciesFilePath cmd)) = true →
  dryRun cmd = false →
  releaseVersion cmd = Some version →
  service cmd = Some service_ →
  let payload := {| payload_dependenciesFilePath := normalize (dependenciesFilePath cmd);
                    payload_service := service_;
                    payload_version := version |} in
  let t := (run cmd).1 in
  List.filter isUpload t = [UploadDependencies payload]
  ∧ match upload payload with
    | Return _ =>
        List.filter isIncrement t = [Increment "success" 1]
        ∧ List.filter isGauge t = [Gauge "duration" (endTime - initialTime)]
        ∧ (run cmd).2 = None
    | Throw error =>
        List.filter isIncrement t = [Increment "failed" 1]
        ∧ List.filter isGauge t = []
        ∧ Stderr (message_of error) ∈ t
        ∧ (run cmd).2 = Some UPLOAD_ERROR_EXIT_CODE
    end.
Proof.
  upload_paths cmd; try discriminate.
  cbn [dependenciesFilePath]. intros _ -> -> [= <-] [= <-].
  cbn [negb default].
  destruct (upload _); cbn.
  - done.
  - repeat split; try done. set_solver.
Qed.

(** X25.  The client of the intake is built for [https://api.] followed by
    the site of the environment, which is [datadoghq.com] when
    [DATADOG_SITE] is unset or empty, and with the two keys of the
    environment. *)
Theorem api_is_built_for_the_site_of_the_environment env cmd baseUrl k1 k2 :
  ApiConstructor baseUrl k1 k2 ∈ (run (configFrom env cmd)).1 →
  baseUrl = "https://api." +:+
            (if from_option JS.truthy false (env !! "DATADOG_SITE")
             then default EmptyString (env !! "DATADOG_SITE") else "datadoghq.com")
  ∧ env !! "DATADOG_API_KEY" = Some k1
  ∧ env !! "DATADOG_APP_KEY" = Some k2.
Proof.
  assert (Hsite : datadogSite (configFrom env cmd)
                  = if from_option JS.truthy false (env !! "DATADOG_SITE")
                    then default EmptyString (env !! "DATADOG_SITE") else "datadoghq.com").
  { unfold configFrom; cbn [datadogSite].
    destruct (env !! "DATADOG_SITE") as [site|]; [|done]. cbn.
    by destruct (JS.truthy site). }
  assert (Hk1 : apiKey (configFrom env cmd) = env !! "DATADOG_API_KEY") by done.
  assert (Hk2 : appKey (configFrom env cmd) = env !! "DATADOG_APP_KEY") by done.
  revert Hsite Hk1 Hk2. generalize (configFrom env cmd) as c. intros c.
  generalize (env !! "DATADOG_API_KEY") (env !! "DATADOG_APP_KEY").
  generalize (if from_option JS.truthy false (env !! "DATADOG_SITE")
              then default EmptyString (env !! "DATADOG_SITE") else "datadoghq.com").
  intros site' o1 o2 Hsite Hk1 Hk2.
  upload_paths c; cbn [datadogSite apiKey appKey] in *; subst;
    try (intros Hin; set_solver).
  destruct (existsSync _); cbn [negb]; [|intros Hin; set_solver].
  destruct dry; [|destruct (upload _)]; cbn [default]; intros Hin.
  all: repeat (apply elem_of_cons in Hin as [Hin|Hin]; [try discriminate Hin|]).
  all: try (injection Hin as -> -> ->; done).
  all: try (by apply elem_of_nil in Hin).
Qed.

End UploadFacts.

Section UploadExamples.
Import DependenciesUpload.

Lemma missing_file_exits_with_code_2_witness :
  (runUpload [] (Return ()) (snykUpload false)).2 = Some MISSING_FILE_EXIT_CODE
  ∧ ∃ text, (runUpload [] (Return ()) (snykUpload false)).1
            = [ExistsSync "snyk_deps.json"; Stderr text].
Proof.
  pose proof (missing_file_exits_with_code_2 (fun s => s) (fun s => s) dropDotSlash
    (fun path version service dry => "Uploading " +:+ path)
    "dry run" "uploading" (fun message => "failed: " +:+ message)
    (fun elapsed => "done")
    (fun path => existsb (String.eqb path) []) (fun _ => Return ()) 1000 2500
    (snykUpload false) eq_refl) as [Hcode Htrace].
  split; [apply Hcode; reflexivity|apply Htrace; reflexivity].
Defined.

Lemma dry_run_never_uploads_witness :
  List.filter isUpload (runUpload ["snyk_deps.json"] (Return ()) (snykUpload true)).1 = []
  ∧ List.filter isIncrement (runUpload ["snyk_deps.json"] (Return ()) (snykUpload true)).1 = []
  ∧ (runUpload ["snyk_deps.json"] (Return ()) (snykUpload true)).2
    ≠ Some UPLOAD_ERROR_EXIT_CODE.
Proof.
  apply (dry_run_never_uploads (fun s => s) (fun s => s) dropDotSlash
    (fun path version service dry => "Uploading " +:+ path)
    "dry run" "uploading" (fun message => "failed: " +:+ message)
    (fun elapsed => "done")
    (fun path => existsb (String.eqb path) ["snyk_deps.json"]) (fun _ => Return ())
    1000 2500 (snykUpload true)).
  reflexivity.
Defined.

Lemma upload_outcome_is_counted_witness :
  let t := (runUpload ["snyk_deps.json"] (Throw (JsError "socket hang up"))
              (snykUpload false)).1 in
  List.filter isIncrement t = [Increment "failed" 1]
  ∧ List.filter isGauge t = []
  ∧ Stderr "socket hang up" ∈ t
  ∧ (runUpload ["snyk_deps.json"] (Throw (JsError "socket hang up")) (snykUpload false)).2
    = Some UPLOAD_ERROR_EXIT_CODE.
Proof.
  intros t.
  pose proof (upload_outcome_is_counted (fun s => s) (fun s => s) dropDotSlash
    (fun path version service dry => "Uploading " +:+ path)
    "dry run" "uploading" (fun message => "failed: " +:+ message)
    (fun elapsed => "done")
    (fun path => existsb (String.eqb path) ["snyk_deps.json"])
    (fun _ => Throw (JsError "socket hang up")) 1000 2500
    (snykUpload false) "1.234" "my-service" eq_refl eq_refl eq_refl eq_refl eq_refl)
    as [_ H].
  exact H.
Defined.

Lemma api_is_built_for_the_site_of_the_environment_witness :
  ApiConstructor "https://api.datadoghq.com" "api-key" "app-key"
    ∈ (runUpload ["snyk_deps.json"] (Return ()) (snykUpload false)).1
  ∧ "https://api.datadoghq.com" = "https://api." +:+ "datadoghq.com".
Proof.
  assert (Hin : ApiConstructor "https://api.datadoghq.com" "api-key" "app-key"
                ∈ (runUpload ["snyk_deps.json"] (Return ()) (snykUpload false)).1).
  { vm_compute. repeat first [apply list_elem_of_here | apply list_elem_of_further]. }
  split; [exact Hin|].
  exact (proj1 (api_is_built_for_the_site_of_the_environment (fun s => s) (fun s => s)
    dropDotSlash (fun path version service dry => "Uploading " +:+ path)
    "dry run" "uploading" (fun message => "failed: " +:+ message)
    (fun elapsed => "done")
    (fun path => existsb (String.eqb path) ["snyk_deps.json"]) (fun _ => Return ())
    1000 2500 _ _ _ _ _ Hin)).
Defined.

End UploadExamples.
